(** * AI Sales Assistant: the monitor/sequencer core, embedded and verified

    The development follows the Python sources module by module:
    [config.py], [integrations.py], [database.py], [ai_engine.py] and
    [automation.py].  Pure functions are Rocq functions; code that talks to
    the mailbox, the document store, the text generator or the clock is
    written in a small state-and-exception monad over an explicit [world].

    Python strings are modelled by [string]; a character stands for a code
    point below 256, so that [str.strip] and [str.lower] are exact on that
    range. *)

From Stdlib Require Import ZArith NArith String Ascii List Bool Lia.
From stdpp Require Import base option list strings gmap fin_maps pretty.

Local Open Scope string_scope.
Local Open Scope Z_scope.

(** ** Python strings *)

Module PyStr.

(** The double quote and the line feed, which the sources write inside
    string literals. *)
Definition DQ : string := String "034"%char EmptyString.
Definition NL : string := String "010"%char EmptyString.
Definition BACKSLASH : string := String "092"%char EmptyString.

(** [c.isspace()] for a code point below 256: TAB..CR, FS..US, SPACE,
    NEL and NBSP. *)
Definition is_space (a : ascii) : bool :=
  let n := N_of_ascii a in
  (((9 <=? n) && (n <=? 13)) || ((28 <=? n) && (n <=? 32))
   || (n =? 133) || (n =? 160))%N.

(** [c.lower()] for a code point below 256: A..Z and the Latin-1 capitals
    (all of 0xC0..0xDE but the multiplication sign). *)
Definition lower_char (a : ascii) : ascii :=
  let n := N_of_ascii a in
  if (((65 <=? n) && (n <=? 90))
      || ((192 <=? n) && (n <=? 222) && negb (n =? 215)))%N
  then ascii_of_N (n + 32) else a.

Fixpoint lower (s : string) : string :=
  match s with
  | EmptyString => EmptyString
  | String a s' => String (lower_char a) (lower s')
  end.

Fixpoint lstrip (s : string) : string :=
  match s with
  | EmptyString => EmptyString
  | String a s' => if is_space a then lstrip s' else s
  end.

Fixpoint rstrip (s : string) : string :=
  match s with
  | EmptyString => EmptyString
  | String a s' =>
      match rstrip s' with
      | EmptyString => if is_space a then EmptyString else String a EmptyString
      | r => String a r
      end
  end.

(** [s.strip()] *)
Definition strip (s : string) : string := rstrip (lstrip s).

(** [sub in s] *)
Fixpoint contains (sub s : string) : bool :=
  String.prefix sub s
  || match s with
     | EmptyString => false
     | String _ s' => contains sub s'
     end.

(** [s.replace(old, new)] for a non-empty [old]: occurrences are found
    left to right and do not overlap.  [skip] counts the characters of the
    occurrence just replaced that are still to be passed over. *)
Fixpoint replace_from (old new : string) (skip : nat) (s : string) : string :=
  match s with
  | EmptyString => EmptyString
  | String a s' =>
      match skip with
      | S k => replace_from old new k s'
      | O =>
          if String.prefix old s
          then new +:+ replace_from old new (String.length old - 1) s'
          else String a (replace_from old new 0 s')
      end
  end.

Definition replace (old new s : string) : string := replace_from old new 0 s.

(** [s.split(sep)] for a non-empty [sep].  [cur] is the piece being read,
    last character first. *)
Fixpoint split_from (sep : string) (skip : nat) (cur : string) (s : string)
  : list string :=
  match s with
  | EmptyString => [String.rev cur]
  | String a s' =>
      match skip with
      | S k => split_from sep k cur s'
      | O =>
          if String.prefix sep s
          then String.rev cur
                 :: split_from sep (String.length sep - 1) EmptyString s'
          else split_from sep 0 (String a cur) s'
      end
  end.

Definition split (sep s : string) : list string :=
  split_from sep 0 EmptyString s.

End PyStr.

(** ** config.py *)

Module Config.

(** [LEAD_STATUS_MAP] *)
Definition LEAD_STATUS_MAP : gmap string string :=
  <["not_interested" := "Not Interested"]>
    (<["interested" := "Interested"]>
       (<["replied" := "Replied"]>
          (<["sent" := "Email Sent"]>
             (<["imported" := "Imported"]> ∅)))).

(** [CALENDLY_LINK] *)
Definition CALENDLY_LINK : string := "https://calendly.com/your-username/30min".

End Config.

(** ** Python values, exceptions and outcomes *)

(** The values that travel through the core: what Firestore documents, the
    Gmail API and [json.loads] hand back.  A float is kept as a decimal at
    microsecond resolution (the resolution of [time.time()]); dictionaries
    nested inside a value keep their insertion order. *)
#[local] Set Warnings "-register-all".
Inductive pyval : Type :=
| PNone
| PBool (b : bool)
| PInt (z : Z)
| PFloat (micros : Z)
| PStr (s : string)
| PList (l : list pyval)
| PDict (d : list (string * pyval)).

(** Instances of [Exception].  [except Exception] catches every one of them;
    [KeyboardInterrupt] and [SystemExit], which that clause lets through on
    purpose, are not errors of a collaborator and are left out. *)
Inductive exn : Type :=
| KeyError (key : string)
| IndexError
| TypeError
| AttributeError
| JSONDecodeError
| ConnectionError
| NotFound
| OtherError (what : string).

Inductive outcome (A : Type) : Type :=
| Ok (a : A)
| Raise (e : exn).
Arguments Ok {A} a.
Arguments Raise {A} e.

#[global] Instance outcome_ret : MRet outcome := @Ok.
#[global] Instance outcome_bind : MBind outcome :=
  fun A B f c => match c with Ok a => f a | Raise e => Raise e end.
#[global] Instance outcome_fmap : FMap outcome :=
  fun A B f c => match c with Ok a => Ok (f a) | Raise e => Raise e end.

(** [try: c except Exception: h] and [try: c except E: h] for one class. *)
Definition try_except {A} (c : outcome A) (h : exn -> outcome A) : outcome A :=
  match c with Ok a => Ok a | Raise e => h e end.

Definition try_except_only {A} (is_E : exn -> bool)
  (c : outcome A) (h : exn -> outcome A) : outcome A :=
  match c with
  | Ok a => Ok a
  | Raise e => if is_E e then h e else Raise e
  end.

Definition is_JSONDecodeError (e : exn) : bool :=
  match e with JSONDecodeError => true | _ => false end.
Definition is_ConnectionError (e : exn) : bool :=
  match e with ConnectionError => true | _ => false end.

Module PyVal.
Import PyStr.


(** [bool(v)] *)
Definition truthy (v : pyval) : bool :=
  match v with
  | PNone => false
  | PBool b => b
  | PInt z => negb (z =? 0)
  | PFloat m => negb (m =? 0)
  | PStr s => negb (String.eqb s "")
  | PList l => match l with [] => false | _ => true end
  | PDict d => match d with [] => false | _ => true end
  end.

Definition hex_digit (n : N) : ascii :=
  if (n <? 10)%N then ascii_of_N (48 + n) else ascii_of_N (87 + n).

(** One character of [repr(s)], inside the quote [q]. *)
Definition repr_char (q : ascii) (a : ascii) : string :=
  let n := N_of_ascii a in
  if (n =? 92)%N then BACKSLASH +:+ BACKSLASH
  else if Ascii.eqb a q then BACKSLASH +:+ String q EmptyString
  else if (n =? 10)%N then BACKSLASH +:+ "n"
  else if (n =? 13)%N then BACKSLASH +:+ "r"
  else if (n =? 9)%N then BACKSLASH +:+ "t"
  else if ((n <? 32) || (n =? 127) || ((128 <=? n) && (n <=? 160))
           || (n =? 173))%N
       then BACKSLASH +:+ "x"
            +:+ String (hex_digit (n / 16)) (String (hex_digit (n mod 16)) EmptyString)
  else String a EmptyString.

Fixpoint repr_chars (q : ascii) (s : string) : string :=
  match s with
  | EmptyString => EmptyString
  | String a s' => repr_char q a +:+ repr_chars q s'
  end.

(** [repr(s)]: single quotes, unless [s] has a single quote and no double
    quote. *)
Definition repr_str (s : string) : string :=
  let q := if contains "'" s && negb (contains DQ s) then "034"%char else "'"%char in
  String q (repr_chars q s) +:+ String q EmptyString.

(** The decimal digits of [n], and the same without trailing zeros. *)
Definition digits (n : N) : string := pretty n.

Fixpoint rstrip_zeros (s : string) : string :=
  match s with
  | EmptyString => EmptyString
  | String a s' =>
      match rstrip_zeros s' with
      | EmptyString => if Ascii.eqb a "0" then EmptyString else String a EmptyString
      | r => String a r
      end
  end.

Fixpoint zeros (k : nat) : string :=
  match k with O => EmptyString | S k' => String "0" (zeros k') end.

(** [repr(x)] of the float [micros] / 10^6: fixed notation when the
    decimal exponent is in -4..15, exponent notation otherwise. *)
Definition repr_float (micros : Z) : string :=
  if micros =? 0 then "0.0" else
  let sign := if micros <? 0 then "-" else "" in
  let a := Z.abs_N micros in
  let all := digits a in
  let d := rstrip_zeros all in
  let e10 := (Z.of_nat (String.length all) - 1 - 6)%Z in
  if (e10 <? -4) || (16 <=? e10) then
    let mant :=
      match d with
      | String c EmptyString => String c EmptyString
      | String c rest => String c ("." +:+ rest)
      | EmptyString => EmptyString
      end in
    let ex := digits (Z.abs_N e10) in
    sign +:+ mant +:+ "e" +:+ (if e10 <? 0 then "-" else "+")
         +:+ (if (String.length ex <? 2)%nat then "0" +:+ ex else ex)
  else
    let ip := digits (a / 1000000) in
    let fr := digits (a mod 1000000) in
    let fr6 := rstrip_zeros (zeros (6 - String.length fr) +:+ fr) in
    sign +:+ ip +:+ "." +:+ (match fr6 with EmptyString => "0" | _ => fr6 end).

(** [repr(v)] *)
Fixpoint repr (v : pyval) : string :=
  match v with
  | PNone => "None"
  | PBool true => "True"
  | PBool false => "False"
  | PInt z => pretty z
  | PFloat m => repr_float m
  | PStr s => repr_str s
  | PList l => "[" +:+ String.concat ", " (List.map repr l) +:+ "]"
  | PDict d =>
      "{" +:+ String.concat ", "
                (List.map (fun kv => match kv with
                                     | (k, x) => repr_str k +:+ ": " +:+ repr x
                                     end) d)
          +:+ "}"
  end.

(** [str(v)], which is what an f-string field [{v}] renders. *)
Definition str (v : pyval) : string :=
  match v with
  | PStr s => s
  | _ => repr v
  end.

(** [needle in v] for a string [needle]: substring of a string, element
    of a list, key of a dictionary; anything else is not iterable. *)
Definition str_in (needle : string) (v : pyval) : outcome bool :=
  match v with
  | PStr s => Ok (contains needle s)
  | PList l =>
      Ok (existsb (fun x => match x with
                            | PStr s => String.eqb s needle
                            | _ => false
                            end) l)
  | PDict d => Ok (existsb (fun kv => String.eqb (fst kv) needle) d)
  | _ => Raise TypeError
  end.

Fixpoint chars (s : string) : list pyval :=
  match s with
  | EmptyString => []
  | String a s' => PStr (String a EmptyString) :: chars s'
  end.

(** [v += s] for a string [s]: concatenation on a string, [extend] with
    the characters of [s] on a list. *)
Definition iadd_str (v : pyval) (s : string) : outcome pyval :=
  match v with
  | PStr b => Ok (PStr (b +:+ s))
  | PList l => Ok (PList (l ++ chars s))
  | _ => Raise TypeError
  end.

(** [v + 1] *)
Definition add_one (v : pyval) : outcome pyval :=
  match v with
  | PInt z => Ok (PInt (z + 1))
  | PBool b => Ok (PInt (Z.b2z b + 1))
  | PFloat m => Ok (PFloat (m + 1000000))
  | _ => Raise TypeError
  end.

(** [d.get(key, default)] of a dictionary value; other values have no
    [get]. *)
Fixpoint assoc (key : string) (d : list (string * pyval)) : option pyval :=
  match d with
  | [] => None
  | (k, x) :: d' => if String.eqb k key then Some x else assoc key d'
  end.

Definition get (v : pyval) (key : string) (dflt : pyval) : outcome pyval :=
  match v with
  | PDict d => Ok (default dflt (assoc key d))
  | _ => Raise AttributeError
  end.

End PyVal.

(** A Python dictionary with string keys (a lead, a campaign, a stored
    document, an update). *)
Abbreviation dict := (gmap string pyval).

(** [d[key]] and [d.get(key, default)] *)
Definition getitem (d : dict) (key : string) : outcome pyval :=
  match d !! key with
  | Some v => Ok v
  | None => Raise (KeyError key)
  end.

Definition dict_get (d : dict) (key : string) (dflt : pyval) : pyval :=
  default dflt (d !! key).

(** [l[i]] *)
Definition index {A} (l : list A) (i : nat) : outcome A :=
  match l !! i with
  | Some x => Ok x
  | None => Raise IndexError
  end.

(** ** integrations.py: the text generator *)

Module Integrations.

(** The generator as the policy layer sees it: what
    [gemini.generate_content(prompt)] does for each prompt. *)
Definition generator : Type := string -> outcome pyval.

(** [class GeminiAPI] defines [__init__] and [generate_text] only, so on
    an instance of it the attribute [generate_content] is missing. *)
Definition GeminiAPI_generate_content : generator :=
  fun _ => Raise AttributeError.

(** [GeminiAPI.generate_text]: [None] without an API key, the text of the
    mocked response otherwise. *)
Definition GeminiAPI_generate_text (api_key : option string) (prompt : string)
  : pyval :=
  match api_key with
  | None | Some EmptyString => PNone
  | Some _ =>
      PStr ("Subject: A Subject Line" +:+ PyStr.NL +:+ PyStr.NL
            +:+ "Body of the email. This is a placeholder for the generated content.")
  end.

End Integrations.

(** ** ai_engine.py *)

Module AiEngine.
Import PyStr PyVal Config Integrations.

(** The indentation the triple-quoted prompts carry on every line. *)
Definition INDENT : string := "        ".

Definition categories : list string :=
  ["interested"; "not_interested"; "neutral"; "ooo"].

(** [.strip().lower().replace(" ", "_")] *)
Definition normalise (s : string) : string :=
  replace " " "_" (lower (strip s)).

Definition classify_prompt (email_body : string) : string :=
  String.concat NL
    [ "";
      INDENT +:+ "Classify the following email reply into one of these exact categories: 'interested', 'not_interested', 'neutral', or 'ooo' (out of office).";
      INDENT;
      INDENT +:+ "Email body:";
      INDENT +:+ DQ +:+ email_body +:+ DQ;
      INDENT;
      INDENT +:+ "Only respond with the single category name, nothing else.";
      INDENT ].

Definition enriched_prompt (lead : dict) : string :=
  String.concat NL
    [ "";
      INDENT +:+ "You are an expert sales representative. Your goal is to write a highly personalized, value-forward cold email to a specific person without using any templates. The tone should be concise and professional.";
      INDENT;
      INDENT +:+ "The person you're emailing is " +:+ str (dict_get lead "name" (PStr "there"))
             +:+ ", a " +:+ str (dict_get lead "title" (PStr "manager"))
             +:+ " at " +:+ str (dict_get lead "company" (PStr "their company"))
             +:+ ". Their industry is " +:+ str (dict_get lead "industry" (PStr "unknown")) +:+ ".";
      INDENT;
      INDENT +:+ "Based on this information, identify a potential pain point they might have and offer a brief, relevant solution.";
      INDENT;
      INDENT +:+ "The email must include a call-to-action asking them to book a brief meeting using this Calendly link: "
             +:+ CALENDLY_LINK +:+ ". Do not mention Calendly by name, just embed the link naturally.";
      INDENT;
      INDENT +:+ "Write both a subject line and the email body. Format your response as a JSON object with 'subject' and 'body' keys.";
      INDENT;
      INDENT +:+ "Example JSON:";
      INDENT +:+ "{";
      INDENT +:+ "  " +:+ DQ +:+ "subject" +:+ DQ +:+ ": " +:+ DQ +:+ "Quick question about pain_point" +:+ DQ +:+ ",";
      INDENT +:+ "  " +:+ DQ +:+ "body" +:+ DQ +:+ ": " +:+ DQ +:+ "Hi "
             +:+ str (dict_get lead "name" (PStr "there"))
             +:+ ", ... your email content ... " +:+ CALENDLY_LINK +:+ "." +:+ DQ;
      INDENT +:+ "}";
      INDENT ].

(** The call to action appended when the link is missing from the body. *)
Definition link_cta : string :=
  NL +:+ NL +:+ "Would you be open to a quick 15-minute chat next week? Here's my booking link: "
     +:+ CALENDLY_LINK.

(** The hard-coded email of the outer [except] clause. *)
Definition template_email (lead : dict) : dict :=
  <["subject" := PStr ("Quick question for " +:+ str (dict_get lead "name" (PStr "you")))]>
    (<["body" := PStr ("Hi " +:+ str (dict_get lead "name" (PStr "there")) +:+ "," +:+ NL +:+ NL
                       +:+ "I was reaching out about "
                       +:+ str (dict_get lead "company" (PStr "your company"))
                       +:+ ". Would you have 15 minutes to chat? Here's a link to my calendar: "
                       +:+ CALENDLY_LINK +:+ NL +:+ NL +:+ "Best," +:+ NL +:+ "Your AI Assistant")]> ∅).

Section Engine.

(** The module-level [gemini] object, and [json.loads]: library code,
    known here by its behaviour on each text ([JSONDecodeError] on a
    text that is not JSON). *)
Variable generate_content : generator.
Variable json_loads : string -> outcome pyval.

(** [json.loads(x)]: a value that is not text is a [TypeError]. *)
Definition loads (x : pyval) : outcome pyval :=
  match x with
  | PStr s => json_loads s
  | _ => Raise TypeError
  end.

(** The body of the inner [try]. *)
Definition parse_structured (ai_response_text : pyval) : outcome (pyval * pyval) :=
  email_parts ← loads ai_response_text;
  subject ← get email_parts "subject" (PStr "Default Subject");
  body ← get email_parts "body" (PStr "Default Body");
  Ok (subject, body).

(** The [except json.JSONDecodeError] clause. *)
Definition parse_manually (ai_response_text : pyval) : outcome (pyval * pyval) :=
  match ai_response_text with
  | PStr text =>
      s1 ← index (split (DQ +:+ "subject" +:+ DQ +:+ ": " +:+ DQ) text) 1;
      subject ← index (split DQ s1) 0;
      b1 ← index (split (DQ +:+ "body" +:+ DQ +:+ ": " +:+ DQ) text) 1;
      b2 ← index (split DQ b1) 0;
      Ok (PStr subject, PStr (replace (BACKSLASH +:+ "n") NL b2))
  | _ => Raise AttributeError
  end.

(** The body of the outer [try]. *)
Definition generate_cold_email_try (lead : dict) (prompt : string) : outcome dict :=
  ai_response_text ← generate_content (enriched_prompt lead);
  parts ← try_except_only is_JSONDecodeError
            (parse_structured ai_response_text)
            (fun _ => parse_manually ai_response_text);
  let subject := parts.1 in
  let body := parts.2 in
  present ← str_in CALENDLY_LINK body;
  body ← (if negb present then iadd_str body link_cta else Ok body);
  Ok (<["subject" := subject]> (<["body" := body]> ∅)).

Definition generate_cold_email (lead : dict) (prompt : string) : outcome dict :=
  try_except (generate_cold_email_try lead prompt)
             (fun e => Ok (template_email lead)).

(** The body of the [try] of [classify_response]. *)
Definition classify_response_try (email_body : string) : outcome string :=
  r ← generate_content (classify_prompt email_body);
  match r with
  | PStr s =>
      let classification := normalise s in
      if bool_decide (classification ∈ categories)
      then Ok classification
      else Ok "neutral"
  | _ => Raise AttributeError
  end.

Definition classify_response (email_body : string) : outcome string :=
  try_except (classify_response_try email_body) (fun e => Ok "neutral").

End Engine.

Definition status_to_score : gmap string string :=
  <["booked" := "Hot"]>
    (<["not_interested" := "Cold"]>
       (<["ooo" := "Warm"]>
          (<["sent" := "Warm"]>
             (<["imported" := "Warm"]>
                (<["neutral" := "Warm"]>
                   (<["replied" := "Warm"]>
                      (<["interested" := "Hot"]> ∅))))))).

Definition score_lead (current_status : string) : string :=
  default "Warm" (status_to_score !! current_status).

(** The tokens of the score table. *)
Definition score_tokens : list string :=
  ["interested"; "replied"; "neutral"; "imported"; "sent"; "ooo";
   "not_interested"; "booked"].

End AiEngine.

(** ** The world outside the core *)

(** A message of the remote mailbox, with what the Gmail API reports of it. *)
Record message : Type := Message {
  m_id : string;
  m_threadId : string;
  m_snippet : string;
  m_subject : option string;  (** the [Subject] header, when there is one *)
  m_unread : bool;            (** carries the label [UNREAD] *)
  m_from_ok : bool            (** Gmail's own reading of the [from:] clause
                                  of the search matches this message *)
}.

(** An entry of the list [get_replies] returns (the [payload] entry is
    never read by the core and is left out). *)
Record reply : Type := Reply {
  r_id : string;
  r_threadId : string;
  r_snippet : string;
  r_subject : string
}.

Record world : Type := World {
  (** [database.db]: [None] when Firebase failed to initialise, else the
      documents of the collection [leads], by id, in stream order *)
  db : option (list (string * dict));
  (** [GmailAPI.service] is not [None] *)
  service : bool;
  inbox : list message;
  (** the Gmail requests of [get_replies] fail *)
  list_fails : bool;
  (** the [modify] request fails for this message id *)
  modify_fails : string -> bool;
  (** what the [try] body of [send_email] yields on its k-th call, for a
      recipient, subject and body: the [threadId] of the answer, or the
      exception of the request *)
  send_result : nat -> pyval -> string -> string -> outcome pyval;
  (** the calls of [send_email] so far, oldest first *)
  send_calls : list (pyval * string * string);
  (** [ai_engine.gemini.generate_content] *)
  gemini : Integrations.generator;
  (** the clock, in microseconds *)
  now : Z
}.

Definition set_db (f : option (list (string * dict)) -> option (list (string * dict)))
  (w : world) : world :=
  World (f (db w)) (service w) (inbox w) (list_fails w) (modify_fails w)
        (send_result w) (send_calls w) (gemini w) (now w).
Definition set_inbox (f : list message -> list message) (w : world) : world :=
  World (db w) (service w) (f (inbox w)) (list_fails w) (modify_fails w)
        (send_result w) (send_calls w) (gemini w) (now w).
Definition set_send_calls
  (f : list (pyval * string * string) -> list (pyval * string * string))
  (w : world) : world :=
  World (db w) (service w) (inbox w) (list_fails w) (modify_fails w)
        (send_result w) (f (send_calls w)) (gemini w) (now w).
Definition set_now (f : Z -> Z) (w : world) : world :=
  World (db w) (service w) (inbox w) (list_fails w) (modify_fails w)
        (send_result w) (send_calls w) (gemini w) (f (now w)).

(** ** Computations: state that survives an exception *)

Definition M (A : Type) : Type := world -> outcome A * world.

#[global] Instance M_ret : MRet M := fun A a w => (Ok a, w).
#[global] Instance M_bind : MBind M :=
  fun A B f c w =>
    match c w with
    | (Ok a, w') => f a w'
    | (Raise e, w') => (Raise e, w')
    end.

(** A pure outcome inside a computation. *)
Definition lift {A} (c : outcome A) : M A := fun w => (c, w).

(** Reading and changing the world. *)
Definition gets {A} (f : world -> A) : M A := fun w => (Ok (f w), w).
Definition modify (f : world -> world) : M unit := fun w => (Ok tt, f w).

(** [try: c except Exception as e: h e] *)
Definition try_catch {A} (c : M A) (h : exn -> M A) : M A :=
  fun w =>
    match c w with
    | (Ok a, w') => (Ok a, w')
    | (Raise e, w') => h e w'
    end.

(** [try: c except E as e: h e] for the one class [E]. *)
Definition try_catch_only {A} (is_E : exn -> bool) (c : M A) (h : exn -> M A) : M A :=
  fun w =>
    match c w with
    | (Ok a, w') => (Ok a, w')
    | (Raise e, w') => if is_E e then h e w' else (Raise e, w')
    end.

(** [for x in l: body x] *)
Fixpoint for_each {A} (body : A -> M unit) (l : list A) : M unit :=
  match l with
  | [] => mret tt
  | x :: l' => body x ≫= fun _ => for_each body l'
  end.

(** [time.time()] and [time.sleep(seconds)] *)
Definition time_time : M pyval := gets (fun w => PFloat (now w)).
Definition time_sleep (seconds : Z) : M unit :=
  modify (set_now (fun t => t + seconds * 1000000)).

(** ** database.py *)

Module Database.

(** [get_collection_ref("leads")] *)
Definition get_collection_ref : M (list (string * dict)) :=
  fun w =>
    match db w with
    | Some docs => (Ok docs, w)
    | None => (Raise ConnectionError, w)
    end.

(** Firestore's [DocumentReference.update]: the fields of [updates]
    replace those of the stored document, the others stay. *)
Fixpoint update_doc (lead_id : string) (updates : dict) (docs : list (string * dict))
  : list (string * dict) :=
  match docs with
  | [] => []
  | (i, d) :: docs' =>
      if String.eqb i lead_id
      then (i, updates ∪ d) :: docs'
      else (i, d) :: update_doc lead_id updates docs'
  end.

Fixpoint find_doc (lead_id : string) (docs : list (string * dict)) : option dict :=
  match docs with
  | [] => None
  | (i, d) :: docs' => if String.eqb i lead_id then Some d else find_doc lead_id docs'
  end.

(** The value of a field of a stored document. *)
Definition field (w : world) (lead_id key : string) : option pyval :=
  docs ← db w; d ← find_doc lead_id docs; d !! key.

(** [.document(lead_id).update(updates)] on the collection: Firestore
    refuses a document that does not exist, and an id must be text.  The
    updates the core writes are not empty and name plain fields, which is
    the case modelled: the fields named replace those of the document.  A
    request the service fails to serve would raise an exception of the
    client library, which [update_lead] does not catch; the store of this
    world serves every request it gets. *)
Definition document_update (lead_id : pyval) (updates : dict) : M unit :=
  fun w =>
    match lead_id, db w with
    | PStr i, Some docs =>
        match find_doc i docs with
        | Some _ => (Ok tt, set_db (fun _ => Some (update_doc i updates docs)) w)
        | None => (Raise NotFound, w)
        end
    | PNone, _ => (Raise NotFound, w)
    | _, _ => (Raise TypeError, w)
    end.

(** [update_lead] *)
Definition update_lead (lead_id : pyval) (updates : dict) : M unit :=
  try_catch_only is_ConnectionError
    (_ ← get_collection_ref; document_update lead_id updates)
    (fun _ => mret tt).

(** [.where("thread_id", "==", thread_id).limit(1).stream()], then the
    [to_dict()] of the first document, if any. *)
Fixpoint first_with_thread (thread_id : string) (docs : list (string * dict))
  : option dict :=
  match docs with
  | [] => None
  | (_, d) :: docs' =>
      match d !! "thread_id" with
      | Some (PStr t) =>
          if String.eqb t thread_id then Some d
          else first_with_thread thread_id docs'
      | _ => first_with_thread thread_id docs'
      end
  end.

(** [get_lead_by_thread_id]: its handler names [ConnectionError] only,
    which is what [get_collection_ref] raises without a database; the
    query itself is served by the store of this world. *)
Definition get_lead_by_thread_id (thread_id : string) : M (option dict) :=
  try_catch_only is_ConnectionError
    (docs ← get_collection_ref; mret (first_with_thread thread_id docs))
    (fun _ => mret None).

(** [.where("status", "==", status).stream()], each document by its
    [to_dict()]. *)
Definition with_status (status : string) (docs : list (string * dict)) : list dict :=
  List.map snd
    (List.filter (fun doc => match snd doc !! "status" with
                             | Some (PStr s) => String.eqb s status
                             | _ => false
                             end) docs).

(** [get_leads_by_status]: as for [get_lead_by_thread_id], only the
    [ConnectionError] of [get_collection_ref] is handled, and the query
    itself is served. *)
Definition get_leads_by_status (status : string) : M (list dict) :=
  try_catch_only is_ConnectionError
    (docs ← get_collection_ref; mret (with_status status docs))
    (fun _ => mret []).

(** [.where("campaign_id", "==", campaign_id).stream()] *)
Definition with_campaign (campaign_id : string) (docs : list (string * dict)) : list dict :=
  List.map snd
    (List.filter (fun doc => match snd doc !! "campaign_id" with
                             | Some (PStr c) => String.eqb c campaign_id
                             | _ => false
                             end) docs).

(** [get_leads_for_campaign]: it reads [db] directly, inside a
    [try ... except Exception] that answers with the empty list; without
    a database the attribute [collection] of [None] is missing. *)
Definition get_leads_for_campaign (campaign_id : string) : M (list dict) :=
  try_catch
    (fun w => match db w with
              | Some docs => (Ok (with_campaign campaign_id docs), w)
              | None => (Raise AttributeError, w)
              end)
    (fun _ => mret []).

End Database.

(** ** integrations.py: the mailbox gateway *)

Module GmailAPI.

(** [send_email]: [None] without a service; otherwise the request is
    made, and its exception, if any, is logged and raised again. *)
Definition send_email (recipient : pyval) (subject body : string) : M pyval :=
  fun w =>
    let w' := set_send_calls (fun l => (l ++ [(recipient, subject, body)])%list) w in
    if negb (service w) then (Ok PNone, w')
    else (send_result w (length (send_calls w)) recipient subject body, w').

(** [subject.lower().startswith("re:")], the subject defaulting to
    ['No Subject']. *)
Definition is_reply (m : message) : bool :=
  String.prefix "re:" (PyStr.lower (default "No Subject" (m_subject m))).

(** The messages the search ["is:unread from:(...)"] lists. *)
Definition in_query (m : message) : bool := m_unread m && m_from_ok m.

Definition reply_of (m : message) : reply :=
  Reply (m_id m) (m_threadId m) (m_snippet m) (default "No Subject" (m_subject m)).

(** [get_replies]: the empty list without a service or when a request
    fails.  The source reads what one call of [messages.list] returns,
    without following a page token: [inbox] stands for the messages that
    call can list, a mailbox whose unread matches fit one page. *)
Definition get_replies : M (list reply) :=
  fun w =>
    if negb (service w) then (Ok [], w)
    else if list_fails w then (Ok [], w)
    else (Ok (List.map reply_of
                (List.filter is_reply (List.filter in_query (inbox w)))), w).

Definition remove_unread (message_id : string) (m : message) : message :=
  if String.eqb (m_id m) message_id
  then Message (m_id m) (m_threadId m) (m_snippet m) (m_subject m) false (m_from_ok m)
  else m.

(** [mark_as_read]: nothing without a service; a failed request is
    logged and swallowed. *)
Definition mark_as_read (message_id : string) : M unit :=
  fun w =>
    if negb (service w) then (Ok tt, w)
    else if modify_fails w message_id then (Ok tt, w)
    else (Ok tt, set_inbox (List.map (remove_unread message_id)) w).

End GmailAPI.

(** ** automation.py *)

Module Automation.
Import PyStr PyVal Config Database.

(** *** SequenceManager *)

(** The fields [run_campaign_send] writes after a successful send. *)
Definition sent_updates (thread_id t campaign_id sent_count : pyval) : dict :=
  <["status" := PStr "sent"]>
    (<["thread_id" := thread_id]>
       (<["last_activity" := t]>
          (<["campaign_id" := campaign_id]>
             (<["sent_count" := sent_count]> ∅)))).

Definition campaign_body (name : pyval) : string :=
  "Hello " +:+ str name +:+ "," +:+ NL +:+ NL
    +:+ "This is a placeholder for the email content." +:+ NL +:+ NL
    +:+ "Best," +:+ NL +:+ "Your Sales Team".

Definition campaign_subject (company : pyval) : string :=
  "Your Subject for " +:+ str company.

(** The body of the [try] inside the loop of [run_campaign_send]. *)
Definition send_to_lead (campaign lead : dict) : M unit :=
  name ← lift (getitem lead "name");
  let email_body := campaign_body name in
  company ← lift (getitem lead "company");
  let subject := campaign_subject company in
  recipient ← lift (getitem lead "email");
  thread_id ← GmailAPI.send_email recipient subject email_body;
  if truthy thread_id then
    lead_id ← lift (getitem lead "id");
    t ← time_time;
    campaign_id ← lift (getitem campaign "id");
    sent_count ← lift (add_one (dict_get lead "sent_count" (PInt 0)));
    _ ← update_lead lead_id (sent_updates thread_id t campaign_id sent_count);
    _ ← lift (getitem lead "email");
    mret tt
  else mret tt.

(** One turn of the loop: the [try], its [except] clause (whose log line
    reads [lead['email']] again), and the delay. *)
Definition campaign_turn (campaign lead : dict) : M unit :=
  _ ← try_catch (send_to_lead campaign lead)
        (fun e => _ ← lift (getitem lead "email"); mret tt);
  time_sleep 1.

(** [SequenceManager.run_campaign_send] *)
Definition run_campaign_send (campaign : dict) (leads : list dict) : M unit :=
  _ ← lift (getitem campaign "name");
  for_each (campaign_turn campaign) leads.

(** What [run_campaign_send] reads of a lead: the message it hands to the
    gateway, the document it updates, the count it writes. *)
Definition mail_of (lead : dict) : pyval * string * string :=
  (dict_get lead "email" PNone,
   campaign_subject (dict_get lead "company" PNone),
   campaign_body (dict_get lead "name" PNone)).

Definition lead_id_of (lead : dict) : string :=
  match lead !! "id" with
  | Some (PStr i) => i
  | _ => EmptyString
  end.

Definition count_after (lead : dict) : pyval :=
  match add_one (dict_get lead "sent_count" (PInt 0)) with
  | Ok c => c
  | Raise _ => PNone
  end.

(** A lead that has the keys [run_campaign_send] reads, an id that is
    text, and a count (or none) that can be incremented. *)
Definition well_formed_lead (lead : dict) : Prop :=
  is_Some (lead !! "name") /\ is_Some (lead !! "company")
  /\ is_Some (lead !! "email")
  /\ (exists i, lead !! "id" = Some (PStr i))
  /\ (exists c, add_one (dict_get lead "sent_count" (PInt 0)) = Ok c).

(** What the k-th call of [send_email] answers for a message. *)
Definition gateway_answer (w : world) (k : nat) (mail : pyval * string * string)
  : outcome pyval :=
  if negb (service w) then Ok PNone
  else send_result w k mail.1.1 mail.1.2 mail.2.

(** The thread id of a send that succeeded: the gateway returned, and
    what it returned is truthy. *)
Definition delivered (answer : outcome pyval) : option pyval :=
  match answer with
  | Ok thread_id => if truthy thread_id then Some thread_id else None
  | Raise _ => None
  end.

(** The fields [send_follow_up] writes after a successful send. *)
Definition follow_up_updates (t sent_count : pyval) : dict :=
  <["last_activity" := t]> (<["sent_count" := sent_count]> ∅).

Definition follow_up_body (name : pyval) : string :=
  "Hi " +:+ str name +:+ "," +:+ NL +:+ NL
    +:+ "Just following up on my previous email." +:+ NL +:+ NL
    +:+ CALENDLY_LINK +:+ NL +:+ NL
    +:+ "Best," +:+ NL +:+ "Your Sales Team".

Definition follow_up_subject (company : pyval) : string :=
  "Re: Your Subject for " +:+ str company.

(** The body of the [try] of [send_follow_up]. *)
Definition follow_up_try (lead : dict) : M unit :=
  name ← lift (getitem lead "name");
  let follow_up_body := follow_up_body name in
  company ← lift (getitem lead "company");
  let subject := follow_up_subject company in
  recipient ← lift (getitem lead "email");
  thread_id ← GmailAPI.send_email recipient subject follow_up_body;
  if truthy thread_id then
    lead_id ← lift (getitem lead "id");
    t ← time_time;
    sent_count ← lift (add_one (dict_get lead "sent_count" (PInt 0)));
    _ ← update_lead lead_id (follow_up_updates t sent_count);
    _ ← lift (getitem lead "email");
    mret tt
  else mret tt.

(** [SequenceManager.send_follow_up]; the first log line, outside the
    [try], reads [lead['email']] and renders [step]. *)
Definition send_follow_up (lead : dict) (step : pyval) : M unit :=
  _ ← lift (getitem lead "email");
  try_catch (follow_up_try lead)
    (fun e => _ ← lift (getitem lead "email"); mret tt).

(** *** ResponseMonitor *)

(** The fields [check_replies] writes for a matched reply. *)
Definition reply_updates (new_status : string) (t : pyval) (score : string) : dict :=
  <["status" := PStr new_status]>
    (<["last_activity" := t]>
       (<["score" := PStr score]> ∅)).

(** [if lead:] on what [get_lead_by_thread_id] returned. *)
Definition found (lead : option dict) : option dict :=
  match lead with
  | Some d => if decide (map_to_list d = []) then None else Some d
  | None => None
  end.

(** The body of the loop of [check_replies]. *)
Definition process_reply (r : reply) : M unit :=
  lead ← get_lead_by_thread_id (r_threadId r);
  match found lead with
  | Some lead =>
      _ ← lift (getitem lead "email");
      g ← gets gemini;
      classification ← lift (AiEngine.classify_response g (r_snippet r));
      let score := AiEngine.score_lead (r_snippet r) in
      let new_status := default "replied" (LEAD_STATUS_MAP !! classification) in
      lead_id ← lift (getitem lead "id");
      t ← time_time;
      _ ← update_lead lead_id (reply_updates new_status t score);
      _ ← GmailAPI.mark_as_read (r_id r);
      _ ← lift (getitem lead "email");
      mret tt
  | None => mret tt
  end.

(** The body of the [try] of [check_replies]. *)
Definition check_replies_try : M unit :=
  replies ← GmailAPI.get_replies;
  match replies with
  | [] => mret tt
  | _ => for_each process_reply replies
  end.

(** [ResponseMonitor.check_replies]: one poll cycle. *)
Definition check_replies : M unit :=
  try_catch check_replies_try (fun e => mret tt).

(** [n] poll cycles in a row. *)
Fixpoint cycles (n : nat) (w : world) : world :=
  match n with
  | O => w
  | S n' => cycles n' (snd (check_replies w))
  end.

(** The candidates a poll cycle started in [w] would fetch. *)
Definition candidates (w : world) : list reply :=
  match fst (GmailAPI.get_replies w) with
  | Ok replies => replies
  | Raise _ => []
  end.

(** What stays true of the world while the message [m] waits, unread, on
    a thread no lead has: the gateway works, [m] is in the mailbox and is
    the only message with its id, and the lookup of its thread finds no
    lead. *)
Definition waiting (m : message) (w : world) : Prop :=
  service w = true
  /\ list_fails w = false
  /\ In m (inbox w)
  /\ (forall m', In m' (inbox w) -> m_id m' = m_id m -> m' = m)
  /\ fst (get_lead_by_thread_id (m_threadId m) w) = Ok None.

(** A candidate that has the id of [m] has its thread. *)
Definition agrees (m : message) (r : reply) : Prop :=
  r_id r = m_id m -> r_threadId r = m_threadId m.

(** What polling leaves of a world [w] in the world [w'] it reaches: the
    oracles, the clock and the log of sends are those of [w], the store
    has the same documents, whose fields other than [status],
    [last_activity] and [score] are as they were. *)
Definition poll_frame (w w' : world) : Prop :=
  send_calls w' = send_calls w /\ now w' = now w
  /\ service w' = service w /\ list_fails w' = list_fails w
  /\ modify_fails w' = modify_fails w /\ send_result w' = send_result w
  /\ gemini w' = gemini w
  /\ option_map (List.map fst) (db w') = option_map (List.map fst) (db w)
  /\ (forall i k : string,
        k <> "status" -> k <> "last_activity" -> k <> "score" ->
        field w' i k = field w i k).

(** *** ResponseMonitor.run, step by step

    The thread that runs [run] and the thread that calls [stop] interleave.
    The loop is cut at its sequence points: the test of the [while], the
    fetch of the candidates, each turn of the [for] loop, and the sleep. *)

Inductive phase : Type :=
| Testing                       (** about to evaluate the [while] condition *)
| Polling                       (** in [check_replies], about to fetch *)
| Processing (todo : list reply) (** in the [for] loop, these are left *)
| Sleeping                      (** in [time.sleep(self.interval)] *)
| Returned.                     (** [run] has returned *)

Record monitor : Type := Monitor {
  stop_event : bool;            (** [self._stop_event.is_set()] *)
  interval : Z;                 (** [self.interval], in seconds *)
  at_phase : phase;
  mworld : world
}.

Definition goto (p : phase) (w : world) (m : monitor) : monitor :=
  Monitor (stop_event m) (interval m) p w.

(** One step of the monitor thread. *)
Definition tick (m : monitor) : monitor :=
  match at_phase m with
  | Testing =>
      if stop_event m then goto Returned (mworld m) m
      else goto Polling (mworld m) m
  | Polling =>
      match GmailAPI.get_replies (mworld m) with
      | (Ok [], w) => goto Sleeping w m
      | (Ok replies, w) => goto (Processing replies) w m
      | (Raise _, w) => goto Sleeping w m
      end
  | Processing [] => goto Sleeping (mworld m) m
  | Processing (r :: todo) =>
      match process_reply r (mworld m) with
      | (Ok _, w) => goto (Processing todo) w m
      | (Raise _, w) => goto Sleeping w m
      end
  | Sleeping => goto Testing (snd (time_sleep (interval m) (mworld m))) m
  | Returned => m
  end.

(** [ResponseMonitor.stop], called from another thread. *)
Definition stop (m : monitor) : monitor :=
  Monitor true (interval m) (at_phase m) (mworld m).

(** What can happen next: the monitor thread moves, or someone calls
    [stop]. *)
Inductive event : Type := Tick | Stop.

Definition react (m : monitor) (e : event) : monitor :=
  match e with
  | Tick => tick m
  | Stop => stop m
  end.

Definition exec (evs : list event) (m : monitor) : monitor :=
  fold_left react evs m.

Definition ticks (evs : list event) : nat :=
  length (List.filter (fun e => match e with Tick => true | Stop => false end) evs).

Definition stops (evs : list event) : bool :=
  existsb (fun e => match e with Stop => true | Tick => false end) evs.

(** The phases inside a poll cycle. *)
Definition in_cycle (p : phase) : bool :=
  match p with
  | Polling | Processing _ => true
  | Testing | Sleeping | Returned => false
  end.

(** The world at the end of a cycle whose loop still has [todo] to
    process: the rest of the [try] of [check_replies], and its handler. *)
Definition cycle_end (todo : list reply) (w : world) : world :=
  snd (try_catch (for_each process_reply todo) (fun e => mret tt) w).

(** One turn of the loop of [run], taken whole: [check_replies], then the
    sleep of [secs] seconds. *)
Definition turn_end (secs : Z) (w : world) : world :=
  snd (time_sleep secs (snd (check_replies w))).

End Automation.

(** ** Concrete leads, generators and worlds used by the examples *)

Module Examples.
Import PyStr PyVal Config Integrations AiEngine Database Automation.

(** The lead of the specification's scenario. *)
Definition jane : dict :=
  <["name" := PStr "Jane"]>
    (<["title" := PStr "VP Sales"]>
       (<["company" := PStr "Acme"]> ∅)).

(** A generator answer that is a JSON object whose [body] is a list of
    paragraphs: [{"subject": "Hello Jane", "body": ["Hi Jane,", "free next week?"]}]. *)
Definition paragraphs_text : string :=
  "{" +:+ DQ +:+ "subject" +:+ DQ +:+ ": " +:+ DQ +:+ "Hello Jane" +:+ DQ +:+ ", "
      +:+ DQ +:+ "body" +:+ DQ +:+ ": [" +:+ DQ +:+ "Hi Jane," +:+ DQ +:+ ", "
      +:+ DQ +:+ "free next week?" +:+ DQ +:+ "]}".

Definition paragraphs_json : pyval :=
  PDict [("subject", PStr "Hello Jane");
         ("body", PList [PStr "Hi Jane,"; PStr "free next week?"])].

(** A generator that always answers with the given text. *)
Definition answers (text : string) : generator := fun _ => Ok (PStr text).

(** [json.loads] on the texts of the examples: the object above for
    [paragraphs_text]; the other texts used are not JSON. *)
Definition json_loads_examples (s : string) : outcome pyval :=
  if String.eqb s paragraphs_text then Ok paragraphs_json else Raise JSONDecodeError.

(** A lead document in the layout [save_lead] writes (the fields of the
    [Lead] model). *)
Definition stored_lead (name email company thread_id : string) : dict :=
  <["name" := PStr name]>
    (<["email" := PStr email]>
       (<["company" := PStr company]>
          (<["title" := PNone]>
             (<["industry" := PNone]>
                (<["score" := PStr "Warm"]>
                   (<["status" := PStr "sent"]>
                      (<["last_activity" := PFloat 1699990000000000]>
                         (<["campaign_id" := PStr "camp-1"]>
                            (<["enrichment" := PDict []]>
                               (<["thread_id" := PStr thread_id]>
                                  (<["sent_count" := PInt 1]>
                                     (<["replied_to" := PBool false]> ∅)))))))))))).

(** The same document carrying its own id in a field [id]. *)
Definition lead_with_id (i : string) (d : dict) : dict := <["id" := PStr i]> d.

Definition jane_doc : dict :=
  lead_with_id "L1" (stored_lead "Jane" "jane@acme.com" "Acme" "t1").
Definition john_doc : dict :=
  lead_with_id "L2" (stored_lead "John Doe" "john.doe@example.com" "Acme Inc." "t2").

Definition unread_reply (i thread snippet : string) : message :=
  Message i thread snippet (Some "Re: Your Subject for Acme") true true.

(** A mailbox with one unread reply, and a store with two leads. *)
Definition world_with (snippet : string) (g : generator) : world :=
  World (Some [("L1", jane_doc); ("L2", john_doc)])
        true
        [unread_reply "m1" "t1" snippet]
        false
        (fun _ => false)
        (fun k _ _ _ => Ok (PStr ("thread-" +:+ pretty k)))
        []
        g
        1700000000000000.

Definition interested_snippet : string := "Yes I'm very interested, let's talk".
Definition ooo_snippet : string := "I'll be out of office until Monday".

(** Two unread replies, for the threads of the two leads.  The document of
    the first lead is a parameter; the second carries its id. *)
Definition world_two (first_doc : dict) : world :=
  World (Some [("L1", first_doc); ("L2", john_doc)])
        true
        [unread_reply "m1" "t1" "Sounds good"; unread_reply "m2" "t2" "Not now"]
        false
        (fun _ => false)
        (fun k _ _ _ => Ok (PStr ("thread-" +:+ pretty k)))
        []
        GeminiAPI_generate_content
        1700000000000000.

(** Jane's document as [save_lead] wrote it: the [Lead] model has no field
    [id]. *)
Definition jane_saved : dict := stored_lead "Jane" "jane@acme.com" "Acme" "t1".

(** Jane's document with a field [id] that names no stored document. *)
Definition jane_stale : dict := lead_with_id "L9" jane_saved.

Definition reply_m1 : reply := Reply "m1" "t1" "Sounds good" "Re: Your Subject for Acme".
Definition reply_m2 : reply := Reply "m2" "t2" "Not now" "Re: Your Subject for Acme".

(** A reply on a thread no lead has. *)
Definition stray : message := unread_reply "m9" "t9" "Who is this?".

Definition world_stray : world :=
  World (Some [("L1", jane_doc); ("L2", john_doc)])
        true
        [unread_reply "m1" "t1" "Sounds good"; stray]
        false
        (fun _ => false)
        (fun k _ _ _ => Ok (PStr ("thread-" +:+ pretty k)))
        []
        GeminiAPI_generate_content
        1700000000000000.

(** A campaign, and three leads of the store; the gateway fails on the
    second call and answers with a thread id on the others. *)
Definition campaign_1 : dict :=
  <["name" := PStr "My First Campaign"]> (<["id" := PStr "camp-1"]> ∅).

(** A lead just imported: not yet sent to. *)
Definition imported (i name email company : string) : dict :=
  <["status" := PStr "imported"]>
    (<["thread_id" := PNone]>
       (<["sent_count" := PInt 0]>
          (lead_with_id i (stored_lead name email company EmptyString)))).

Definition jane_new : dict := imported "L1" "Jane" "jane@acme.com" "Acme".
Definition john_new : dict := imported "L2" "John Doe" "john.doe@example.com" "Acme Inc.".
Definition mary_new : dict := imported "L3" "Mary" "mary@globex.com" "Globex Corp.".

Definition world_campaign : world :=
  World (Some [("L1", jane_new); ("L2", john_new); ("L3", mary_new)])
        true
        []
        false
        (fun _ => false)
        (fun k _ _ _ => if Nat.eqb k 1 then Raise (OtherError "HttpError 500")
                        else Ok (PStr ("thread-" +:+ pretty k)))
        []
        GeminiAPI_generate_content
        1700000000000000.

(** A lead document as [save_lead] writes it on import: the fields of the
    [Lead] model, none of which is an [id]. *)
Definition saved_import (name email company : string) : dict :=
  <["status" := PStr "imported"]>
    (<["thread_id" := PNone]>
       (<["sent_count" := PInt 0]> (stored_lead name email company EmptyString))).

Definition jane_import : dict := saved_import "Jane" "jane@acme.com" "Acme".
Definition john_import : dict :=
  saved_import "John Doe" "john.doe@example.com" "Acme Inc.".

(** A store of imported leads of the campaign, and a gateway that
    delivers every message. *)
Definition world_import : world :=
  World (Some [("L1", jane_import); ("L2", john_import)])
        true
        []
        false
        (fun _ => false)
        (fun k _ _ _ => Ok (PStr ("thread-" +:+ pretty k)))
        []
        GeminiAPI_generate_content
        1700000000000000.

End Examples.

(** * Theorems *)

Module AiEngineFacts.
Import PyStr PyVal Config Integrations AiEngine Examples.

(** C1: [score_lead] returns the mapped value on each of the eight tokens of
    the score table (interested, replied, neutral, imported, sent, ooo,
    not_interested, booked give Hot, Warm, Warm, Warm, Warm, Warm, Cold,
    Hot), and ["Warm"] on every other string. *)
Theorem score_lead_table :
  score_lead "interested" = "Hot" /\ score_lead "replied" = "Warm" /\
  score_lead "neutral" = "Warm" /\ score_lead "imported" = "Warm" /\
  score_lead "sent" = "Warm" /\ score_lead "ooo" = "Warm" /\
  score_lead "not_interested" = "Cold" /\ score_lead "booked" = "Hot" /\
  forall token : string, token ∉ score_tokens -> score_lead token = "Warm".
Proof.
  repeat split; try reflexivity.
  intros token Hout. unfold score_lead, status_to_score.
  repeat (rewrite lookup_insert_ne;
          [| intros <-; apply Hout; unfold score_tokens; set_solver]).
  rewrite lookup_empty. reflexivity.
Qed.

Lemma score_lead_table_witness :
  score_lead "Yes I'm very interested, let's talk" = "Warm".
Proof.
  apply (proj2 (proj2 (proj2 (proj2 (proj2 (proj2 (proj2 (proj2 score_lead_table)))))))).
  apply (bool_decide_unpack _). vm_compute. exact I.
Defined.

(** What [classify_response] does with each kind of answer. *)
Lemma classify_response_cases (g : generator) (email_body : string) :
  classify_response g email_body =
    match g (classify_prompt email_body) with
    | Ok (PStr s) =>
        if bool_decide (normalise s ∈ categories) then Ok (normalise s) else Ok "neutral"
    | _ => Ok "neutral"
    end.
Proof.
  unfold classify_response, classify_response_try, try_except, mbind, outcome_bind.
  destruct (g (classify_prompt email_body)) as [[]|]; try reflexivity.
  case_bool_decide; reflexivity.
Qed.



(** On the class of the repository the generator has no
    [generate_content]: every reply is classified ['neutral']. *)
Lemma classify_response_GeminiAPI (email_body : string) :
  classify_response GeminiAPI_generate_content email_body = Ok "neutral".
Proof. reflexivity. Qed.

Example classify_response_not_interested :
  classify_response (answers " Not Interested ") "No thanks." = Ok "not_interested".
Proof. vm_compute. reflexivity. Qed.

Example classify_response_garbage :
  classify_response (answers "maybe later?") "No thanks." = Ok "neutral".
Proof. vm_compute. reflexivity. Qed.

End AiEngineFacts.

Module ColdEmailFacts.
Import PyStr PyVal Config Integrations AiEngine Examples.

Lemma prefix_append (s t : string) : String.prefix s (s +:+ t) = true.
Proof.
  induction s as [|a s IH]; simpl.
  - destruct t; reflexivity.
  - destruct (ascii_dec a a) as [_|Hne]; [exact IH | congruence].
Qed.

Lemma contains_prefix (sub s : string) :
  String.prefix sub s = true -> contains sub s = true.
Proof. intros H. destruct s; cbn [contains]; rewrite H; reflexivity. Qed.

Lemma contains_head (sub b : string) : contains sub (sub +:+ b) = true.
Proof. apply contains_prefix, prefix_append. Qed.

Lemma contains_refl (sub : string) : contains sub sub = true.
Proof.
  apply contains_prefix. induction sub as [|a s IH]; simpl; [reflexivity|].
  destruct (ascii_dec a a); [exact IH | congruence].
Qed.

Lemma contains_app_r (sub a t : string) :
  contains sub t = true -> contains sub (a +:+ t) = true.
Proof.
  intros H. induction a as [|c a IH]; [exact H|].
  change (contains sub (String c (a +:+ t)) = true).
  cbn [contains]. rewrite IH. apply orb_true_r.
Qed.

(** Finds the link inside a concatenation. *)
Ltac find_link :=
  repeat first [ apply contains_head | apply contains_refl | apply contains_app_r ].

Lemma contains_link_cta (b : string) : contains CALENDLY_LINK (b +:+ link_cta) = true.
Proof. unfold link_cta. find_link. Qed.

(** The email of the [except] clause is made of two strings, and its body
    carries the link. *)
Lemma template_email_ok (lead : dict) :
  exists s b, template_email lead !! "subject" = Some (PStr s)
              /\ template_email lead !! "body" = Some (PStr b)
              /\ contains CALENDLY_LINK b = true.
Proof.
  unfold template_email. eexists _, _. split; [|split].
  - rewrite lookup_insert_eq. reflexivity.
  - rewrite lookup_insert_ne by discriminate. rewrite lookup_insert_eq. reflexivity.
  - find_link.
Qed.

(** What the body of the outer [try] can return: a dictionary with the two
    keys, whose body, when it is a string, carries the link. *)
Lemma generate_cold_email_try_ok (g : generator) (jl : string -> outcome pyval)
  (lead : dict) (prompt : string) (d : dict) :
  generate_cold_email_try g jl lead prompt = Ok d ->
  exists subject body,
    d = <["subject" := subject]> (<["body" := body]> ∅)
    /\ forall b, body = PStr b -> contains CALENDLY_LINK b = true.
Proof.
  unfold generate_cold_email_try, mbind, outcome_bind.
  destruct (g (enriched_prompt lead)) as [text|]; [|discriminate].
  destruct (try_except_only _ _ _) as [[subject body]|]; [|discriminate].
  cbn [fst snd].
  destruct (str_in CALENDLY_LINK body) as [present|] eqn:Hin; [|discriminate].
  destruct present; cbn [negb].
  - intros [= <-]. exists subject, body. split; [reflexivity|].
    intros b ->. simpl in Hin. congruence.
  - destruct (iadd_str body link_cta) as [body'|] eqn:Hadd; [|discriminate].
    intros [= <-]. exists subject, body'. split; [reflexivity|].
    intros b ->. destruct body; try discriminate; simpl in Hadd.
    injection Hadd as <-. apply contains_link_cta.
Qed.

(** [generate_cold_email] never raises; it returns a dictionary with the
    keys ['subject'] and ['body'], and a body that is a string carries the
    link. *)
Lemma generate_cold_email_returns (g : generator) (jl : string -> outcome pyval)
  (lead : dict) (prompt : string) :
  exists subject body,
    generate_cold_email g jl lead prompt
      = Ok (<["subject" := subject]> (<["body" := body]> ∅))
    /\ forall b, body = PStr b -> contains CALENDLY_LINK b = true.
Proof.
  unfold generate_cold_email, try_except.
  destruct (generate_cold_email_try g jl lead prompt) as [d|e] eqn:Htry.
  - destruct (generate_cold_email_try_ok _ _ _ _ _ Htry) as (s & b & -> & Hb).
    eauto.
  - unfold template_email. eexists _, _. split; [reflexivity|].
    intros b [= <-]. find_link.
Qed.

(** When the generator raises, or its text is neither JSON nor carries the
    quoted field markers, the hard-coded email is returned. *)
Lemma generate_cold_email_exception_path (g : generator) (jl : string -> outcome pyval)
  (lead : dict) (prompt : string) (e : exn) :
  g (enriched_prompt lead) = Raise e ->
  generate_cold_email g jl lead prompt = Ok (template_email lead).
Proof.
  intros H. unfold generate_cold_email, generate_cold_email_try, mbind, outcome_bind.
  rewrite H. reflexivity.
Qed.

(** On the manual path (the text is not JSON but has the markers) subject
    and body are strings. *)
Lemma generate_cold_email_manual_path (g : generator) (jl : string -> outcome pyval)
  (lead : dict) (prompt : string) (text : string) (subject body : pyval) :
  g (enriched_prompt lead) = Ok (PStr text) ->
  jl text = Raise JSONDecodeError ->
  parse_manually (PStr text) = Ok (subject, body) ->
  exists s b,
    generate_cold_email g jl lead prompt
      = Ok (<["subject" := PStr s]> (<["body" := PStr b]> ∅))
    /\ contains CALENDLY_LINK b = true.
Proof.
  intros Hg Hjl Hman.
  assert (exists s b, subject = PStr s /\ body = PStr b) as (s & b & -> & ->).
  { unfold parse_manually, mbind, outcome_bind in Hman.
    repeat match type of Hman with
           | match ?c with Ok _ => _ | Raise _ => _ end = _ =>
               destruct c; [|discriminate]
           end.
    injection Hman as <- <-. eauto. }
  unfold generate_cold_email, generate_cold_email_try, mbind, outcome_bind.
  rewrite Hg. unfold parse_structured, loads, mbind, outcome_bind. rewrite Hjl.
  cbn [try_except_only is_JSONDecodeError]. rewrite Hman. cbn [fst snd str_in].
  destruct (contains CALENDLY_LINK b) eqn:Hin; cbn [negb iadd_str try_except].
  - eauto.
  - eexists _, _. split; [reflexivity|]. apply contains_link_cta.
Qed.

(** C3, at the failing input: the generator answers with a JSON object whose
    [body] is a list of paragraphs.  [generate_cold_email] returns a body
    that is not a string -- the list, extended with the characters of the
    call to action one by one -- and the link is not [in] it. *)
Theorem generate_cold_email_list_body :
  generate_cold_email (answers paragraphs_text) json_loads_examples jane ""
    = Ok (<["subject" := PStr "Hello Jane"]>
            (<["body" := PList ([PStr "Hi Jane,"; PStr "free next week?"]
                                  ++ chars link_cta)]> ∅))
  /\ str_in CALENDLY_LINK
       (PList ([PStr "Hi Jane,"; PStr "free next week?"] ++ chars link_cta)) = Ok false.
Proof. split; vm_compute; reflexivity. Qed.

End ColdEmailFacts.

Module StoreFacts.
Import PyStr PyVal Config Integrations AiEngine Database Automation.

Lemma get_lead_by_thread_id_eq (thread_id : string) (w : world) :
  get_lead_by_thread_id thread_id w
  = (Ok (docs ← db w; first_with_thread thread_id docs), w).
Proof.
  unfold get_lead_by_thread_id, try_catch_only, get_collection_ref, mbind, M_bind.
  destruct (db w); reflexivity.
Qed.

Lemma update_lead_eq (i : string) (updates : dict) (w : world) :
  update_lead (PStr i) updates w =
    match db w with
    | None => (Ok tt, w)
    | Some docs =>
        match find_doc i docs with
        | Some _ => (Ok tt, set_db (fun _ => Some (update_doc i updates docs)) w)
        | None => (Raise NotFound, w)
        end
    end.
Proof.
  unfold update_lead, try_catch_only, get_collection_ref, document_update, mbind, M_bind.
  destruct (db w) as [docs|] eqn:Hdb; [|reflexivity].
  rewrite Hdb. destruct (find_doc i docs); reflexivity.
Qed.

Lemma first_with_thread_Some (t : string) (docs : list (string * dict)) (d : dict) :
  first_with_thread t docs = Some d -> d !! "thread_id" = Some (PStr t).
Proof.
  induction docs as [|[i d'] docs IH]; [discriminate|]. cbn [first_with_thread].
  destruct (d' !! "thread_id") as [[]|] eqn:Ht; try exact IH.
  destruct (String.eqb_spec s t) as [->|]; [|exact IH].
  intros [= <-]. exact Ht.
Qed.

Lemma found_first_with_thread (t : string) (docs : list (string * dict)) (d : dict) :
  first_with_thread t docs = Some d -> found (Some d) = Some d.
Proof.
  intros H%first_with_thread_Some. unfold found.
  destruct (decide (map_to_list d = [])) as [He|]; [|reflexivity].
  apply map_to_list_empty_iff in He. subst d. rewrite lookup_empty in H. discriminate.
Qed.

Lemma find_doc_update_same (i : string) (u : dict) (docs : list (string * dict)) (d : dict) :
  find_doc i docs = Some d -> find_doc i (update_doc i u docs) = Some (u ∪ d).
Proof.
  induction docs as [|[j d'] docs IH]; [discriminate|]. cbn [find_doc update_doc].
  destruct (String.eqb_spec j i) as [->|Hne]; cbn [find_doc].
  - rewrite String.eqb_refl. intros [= ->]. reflexivity.
  - destruct (String.eqb_spec j i); [contradiction|]. exact IH.
Qed.

Lemma find_doc_update_other (i j : string) (u : dict) (docs : list (string * dict)) :
  i <> j -> find_doc j (update_doc i u docs) = find_doc j docs.
Proof.
  intros Hne. induction docs as [|[k d'] docs IH]; [reflexivity|]. cbn [find_doc update_doc].
  destruct (String.eqb_spec k i) as [->|]; cbn [find_doc].
  - destruct (String.eqb_spec i j); [contradiction|reflexivity].
  - destruct (String.eqb_spec k j); [reflexivity|exact IH].
Qed.

Lemma field_mark_as_read (message_id : string) (w : world) (i k : string) :
  field (snd (GmailAPI.mark_as_read message_id w)) i k = field w i k.
Proof.
  unfold GmailAPI.mark_as_read.
  destruct (negb (service w)), (modify_fails w message_id); reflexivity.
Qed.

Lemma mark_as_read_ok (message_id : string) (w : world) :
  fst (GmailAPI.mark_as_read message_id w) = Ok tt.
Proof.
  unfold GmailAPI.mark_as_read.
  destruct (negb (service w)), (modify_fails w message_id); reflexivity.
Qed.

(** A matched candidate whose lead carries [email] and the id of its own
    document: the three fields are written and the message is marked. *)
Lemma process_reply_matched (r : reply) (w : world)
  (docs : list (string * dict)) (lead d0 : dict) (i c : string) :
  db w = Some docs ->
  first_with_thread (r_threadId r) docs = Some lead ->
  is_Some (lead !! "email") ->
  lead !! "id" = Some (PStr i) ->
  find_doc i docs = Some d0 ->
  classify_response (gemini w) (r_snippet r) = Ok c ->
  process_reply r w
  = GmailAPI.mark_as_read (r_id r)
      (set_db (fun _ => Some (update_doc i
                 (reply_updates (default "replied" (LEAD_STATUS_MAP !! c))
                                (PFloat (now w)) (score_lead (r_snippet r))) docs)) w).
Proof.
  intros Hdb Hfirst [e He] Hid Hdoc Hc.
  unfold process_reply. unfold mbind at 1. unfold M_bind at 1.
  rewrite get_lead_by_thread_id_eq, Hdb. cbn [mbind option_bind].
  rewrite Hfirst, (found_first_with_thread _ _ _ Hfirst).
  unfold mbind, M_bind, lift, getitem, time_time, gets.
  rewrite He, Hc, Hid. cbn beta iota. rewrite update_lead_eq, Hdb, Hdoc.
  destruct (GmailAPI.mark_as_read _ _) as [[[]|] ?] eqn:Hm; [reflexivity|].
  apply (f_equal fst) in Hm. rewrite mark_as_read_ok in Hm. discriminate.
Qed.

End StoreFacts.

Module PollFacts.
Import PyStr PyVal Config Integrations AiEngine Database Automation Examples StoreFacts.

Lemma get_replies_world (w : world) : snd (GmailAPI.get_replies w) = w.
Proof.
  unfold GmailAPI.get_replies. destruct (negb (service w)), (list_fails w); reflexivity.
Qed.

Lemma field_reply_updates (w : world) (docs : list (string * dict)) (d0 : dict)
  (i status score : string) (t : pyval) :
  find_doc i docs = Some d0 ->
  let w' := set_db (fun _ => Some (update_doc i (reply_updates status t score) docs)) w in
  field w' i "status" = Some (PStr status)
  /\ field w' i "score" = Some (PStr score)
  /\ field w' i "last_activity" = Some t.
Proof.
  intros Hdoc w'. unfold field, w', set_db. cbn [db mbind option_bind].
  rewrite (find_doc_update_same _ _ _ _ Hdoc). cbn [mbind option_bind].
  unfold reply_updates. repeat split.
  - apply lookup_union_Some_l. apply lookup_insert_eq.
  - apply lookup_union_Some_l. rewrite !lookup_insert_ne by discriminate.
    apply lookup_insert_eq.
  - apply lookup_union_Some_l. rewrite lookup_insert_ne by discriminate.
    apply lookup_insert_eq.
Qed.

(** A poll cycle whose only candidate is a matched reply: the cycle
    returns, and the store holds the status mapped from the classification,
    the score computed from the snippet, and the time of the update. *)
Lemma check_replies_single (r : reply) (w : world)
  (docs : list (string * dict)) (lead d0 : dict) (i c : string) :
  fst (GmailAPI.get_replies w) = Ok [r] ->
  db w = Some docs ->
  first_with_thread (r_threadId r) docs = Some lead ->
  is_Some (lead !! "email") ->
  lead !! "id" = Some (PStr i) ->
  find_doc i docs = Some d0 ->
  classify_response (gemini w) (r_snippet r) = Ok c ->
  fst (check_replies w) = Ok tt
  /\ field (snd (check_replies w)) i "status"
     = Some (PStr (default "replied" (LEAD_STATUS_MAP !! c)))
  /\ field (snd (check_replies w)) i "score" = Some (PStr (score_lead (r_snippet r)))
  /\ field (snd (check_replies w)) i "last_activity" = Some (PFloat (now w)).
Proof.
  intros Hget Hdb Hfirst He Hid Hdoc Hc.
  assert (Hcycle : check_replies w = process_reply r w).
  { unfold check_replies, try_catch, check_replies_try. unfold mbind at 1. unfold M_bind at 1.
    destruct (GmailAPI.get_replies w) as [o w1] eqn:Hg.
    pose proof (get_replies_world w) as Hw. rewrite Hg in Hw. cbn in Hw, Hget. subst.
    cbn [for_each]. unfold mbind, M_bind.
    rewrite (process_reply_matched _ _ _ _ _ _ _ Hdb Hfirst He Hid Hdoc Hc).
    destruct (GmailAPI.mark_as_read _ _) as [[[]|] ?] eqn:Hm; [reflexivity|].
    apply (f_equal fst) in Hm. rewrite mark_as_read_ok in Hm. discriminate. }
  rewrite Hcycle, (process_reply_matched _ _ _ _ _ _ _ Hdb Hfirst He Hid Hdoc Hc).
  rewrite mark_as_read_ok, !field_mark_as_read.
  split; [reflexivity|]. apply field_reply_updates with (d0 := d0). exact Hdoc.
Qed.

(** C5, what the code does: for a cycle whose candidate has the snippet
    "Yes I'm very interested, let's talk", matches a lead and is classified
    ['interested'], the status persisted is "Interested" and the score
    persisted is "Warm": the score is looked up from the snippet, which is
    no token of the score table, and not from the classification. *)
Theorem interested_reply_persists_warm (r : reply) (w : world)
  (docs : list (string * dict)) (lead d0 : dict) (i : string) :
  r_snippet r = interested_snippet ->
  fst (GmailAPI.get_replies w) = Ok [r] ->
  db w = Some docs ->
  first_with_thread (r_threadId r) docs = Some lead ->
  is_Some (lead !! "email") ->
  lead !! "id" = Some (PStr i) ->
  find_doc i docs = Some d0 ->
  classify_response (gemini w) (r_snippet r) = Ok "interested" ->
  fst (check_replies w) = Ok tt
  /\ field (snd (check_replies w)) i "status" = Some (PStr "Interested")
  /\ field (snd (check_replies w)) i "score" = Some (PStr "Warm")
  /\ score_lead "interested" = "Hot".
Proof.
  intros Hsn Hget Hdb Hfirst He Hid Hdoc Hc.
  destruct (check_replies_single _ _ _ _ _ _ _ Hget Hdb Hfirst He Hid Hdoc Hc)
    as (Hok & Hst & Hsc & _).
  rewrite Hsn in Hsc. repeat split; assumption || reflexivity.
Qed.

Lemma interested_reply_persists_warm_witness :
  let w := world_with interested_snippet (answers "interested") in
  fst (check_replies w) = Ok tt
  /\ field (snd (check_replies w)) "L1" "status" = Some (PStr "Interested")
  /\ field (snd (check_replies w)) "L1" "score" = Some (PStr "Warm")
  /\ score_lead "interested" = "Hot".
Proof.
  apply (interested_reply_persists_warm
           (Reply "m1" "t1" interested_snippet "Re: Your Subject for Acme")
           (world_with interested_snippet (answers "interested"))
           [("L1", jane_doc); ("L2", john_doc)] jane_doc jane_doc "L1");
    try reflexivity.
  - exists (PStr "jane@acme.com"). reflexivity.
Defined.

(** C8: the status stored for a classification is its entry in
    [LEAD_STATUS_MAP] (imported, sent, replied, interested, not_interested
    give Imported, Email Sent, Replied, Interested, Not Interested), and
    "replied" for every classification outside the table, ['ooo'] among
    them; for a cycle whose candidate has the out-of-office snippet, matches
    a lead and is classified ['ooo'], the status persisted is "replied" and
    the score persisted is "Warm". *)
Theorem status_map_and_ooo_reply :
  (LEAD_STATUS_MAP !! "imported" = Some "Imported"
   /\ LEAD_STATUS_MAP !! "sent" = Some "Email Sent"
   /\ LEAD_STATUS_MAP !! "replied" = Some "Replied"
   /\ LEAD_STATUS_MAP !! "interested" = Some "Interested"
   /\ LEAD_STATUS_MAP !! "not_interested" = Some "Not Interested")
  /\ (forall c : string,
        c ∉ ["imported"; "sent"; "replied"; "interested"; "not_interested"] ->
        default "replied" (LEAD_STATUS_MAP !! c) = "replied")
  /\ default "replied" (LEAD_STATUS_MAP !! "ooo") = "replied"
  /\ (forall (r : reply) (w : world) (docs : list (string * dict))
             (lead d0 : dict) (i c : string),
        fst (GmailAPI.get_replies w) = Ok [r] ->
        db w = Some docs ->
        first_with_thread (r_threadId r) docs = Some lead ->
        is_Some (lead !! "email") ->
        lead !! "id" = Some (PStr i) ->
        find_doc i docs = Some d0 ->
        classify_response (gemini w) (r_snippet r) = Ok c ->
        fst (check_replies w) = Ok tt
        /\ field (snd (check_replies w)) i "status"
           = Some (PStr (default "replied" (LEAD_STATUS_MAP !! c)))
        /\ (r_snippet r = ooo_snippet -> c = "ooo" ->
            field (snd (check_replies w)) i "status" = Some (PStr "replied")
            /\ field (snd (check_replies w)) i "score" = Some (PStr "Warm"))).
Proof.
  split; [repeat split; reflexivity|]. split; [|split; [reflexivity|]].
  - intros c Hout. unfold LEAD_STATUS_MAP.
    repeat (rewrite lookup_insert_ne; [| intros <-; apply Hout; set_solver]).
    rewrite lookup_empty. reflexivity.
  - intros r w docs lead d0 i c Hget Hdb Hfirst He Hid Hdoc Hc.
    destruct (check_replies_single _ _ _ _ _ _ _ Hget Hdb Hfirst He Hid Hdoc Hc)
      as (Hok & Hst & Hsc & _).
    split; [exact Hok|]. split; [exact Hst|].
    intros Hsn ->. rewrite Hsn in Hsc. split; [exact Hst| exact Hsc].
Qed.

Lemma status_map_and_ooo_reply_witness :
  let w := world_with ooo_snippet (answers "ooo") in
  fst (check_replies w) = Ok tt
  /\ field (snd (check_replies w)) "L1" "status" = Some (PStr "replied")
  /\ field (snd (check_replies w)) "L1" "score" = Some (PStr "Warm").
Proof.
  intros w.
  destruct (proj2 (proj2 (proj2 status_map_and_ooo_reply))
              (Reply "m1" "t1" ooo_snippet "Re: Your Subject for Acme") w
              [("L1", jane_doc); ("L2", john_doc)] jane_doc jane_doc "L1" "ooo")
    as (Hok & _ & Hooo); try reflexivity.
  - exists (PStr "jane@acme.com"). reflexivity.
  - destruct Hooo as [Hst Hsc]; [reflexivity | reflexivity |].
    split; [exact Hok|]. split; [exact Hst | exact Hsc].
Defined.

End PollFacts.

Module CycleFacts.
Import PyStr PyVal Config Integrations AiEngine Database Automation Examples StoreFacts PollFacts.

(** A poll cycle never hands an exception to its caller. *)
Lemma check_replies_returns (w : world) : fst (check_replies w) = Ok tt.
Proof.
  unfold check_replies, try_catch.
  destruct (check_replies_try w) as [[[]|e] w']; reflexivity.
Qed.

(** The loop has no handler of its own: when one turn raises, the turns
    after it do not run. *)
Lemma for_each_stops {A} (body : A -> M unit) (x : A) (rest : list A) (w w' : world) (e : exn) :
  body x w = (Raise e, w') -> for_each body (x :: rest) w = (Raise e, w').
Proof. intros H. cbn [for_each]. unfold mbind, M_bind. rewrite H. reflexivity. Qed.

Lemma check_replies_stops (r : reply) (rest : list reply) (w w' : world) (e : exn) :
  candidates w = r :: rest ->
  process_reply r w = (Raise e, w') ->
  check_replies w = (Ok tt, w').
Proof.
  intros Hc Hp. unfold check_replies, try_catch, check_replies_try.
  unfold mbind at 1. unfold M_bind at 1. unfold candidates in Hc.
  pose proof (get_replies_world w) as Hw.
  destruct (GmailAPI.get_replies w) as [[l|] w1]; cbn in Hc, Hw; subst; [|discriminate].
  rewrite (for_each_stops _ _ _ _ _ _ Hp). reflexivity.
Qed.

(** C6, at the failing input: two unread replies, each on the thread of a
    stored lead.  Processing the first raises (the lead has no [id], or its
    [id] names no document); the cycle catches the exception outside the
    loop and returns with the world unchanged: the second reply, which
    processed on its own updates its lead and is marked read, is left
    unprocessed and unread. *)
Theorem check_replies_abandons_remaining_replies :
  (let w := world_two jane_saved in
   candidates w = [reply_m1; reply_m2]
   /\ fst (process_reply reply_m1 w) = Raise (KeyError "id")
   /\ check_replies w = (Ok tt, w)
   /\ field (snd (check_replies w)) "L2" "status" = Some (PStr "sent")
   /\ List.map m_unread (inbox (snd (check_replies w))) = [true; true]
   /\ fst (process_reply reply_m2 w) = Ok tt
   /\ field (snd (process_reply reply_m2 w)) "L2" "status" = Some (PStr "replied")
   /\ List.map m_unread (inbox (snd (process_reply reply_m2 w))) = [true; false])
  /\ (let w := world_two jane_stale in
      candidates w = [reply_m1; reply_m2]
      /\ fst (process_reply reply_m1 w) = Raise NotFound
      /\ check_replies w = (Ok tt, w)
      /\ field (snd (check_replies w)) "L2" "status" = Some (PStr "sent")
      /\ List.map m_unread (inbox (snd (check_replies w))) = [true; true]).
Proof. repeat split; vm_compute; reflexivity. Qed.

End CycleFacts.

Module UnmatchedFacts.
Import PyStr PyVal Config Integrations AiEngine Database Automation Examples StoreFacts PollFacts CycleFacts.

(** Where [update_lead] leaves the world: untouched, or with one document
    merged with the update. *)
Lemma update_lead_world (lead_id : pyval) (u : dict) (w : world) :
  snd (update_lead lead_id u w) = w
  \/ exists i docs d0,
       lead_id = PStr i /\ db w = Some docs /\ find_doc i docs = Some d0
       /\ update_lead lead_id u w
          = (Ok tt, set_db (fun _ => Some (update_doc i u docs)) w).
Proof.
  destruct lead_id as [| | | |i| |];
    try (left; unfold update_lead, try_catch_only, get_collection_ref,
           document_update, mbind, M_bind; destruct (db w); reflexivity).
  rewrite update_lead_eq. destruct (db w) as [docs|] eqn:Hdb; [|left; reflexivity].
  destruct (find_doc i docs) as [d0|] eqn:Hdoc; [|left; reflexivity].
  right. exists i, docs, d0. auto.
Qed.

Lemma mark_as_read_world (message_id : string) (w : world) :
  snd (GmailAPI.mark_as_read message_id w) = w
  \/ snd (GmailAPI.mark_as_read message_id w)
     = set_inbox (List.map (GmailAPI.remove_unread message_id)) w.
Proof.
  unfold GmailAPI.mark_as_read.
  destruct (negb (service w)), (modify_fails w message_id); auto.
Qed.

(** Where [process_reply] leaves the world: untouched (no lead, or an
    exception before the update), or after the update of a lead found on
    the thread of the reply, with or without the mark. *)
Lemma process_reply_world (r : reply) (w : world) :
  snd (process_reply r w) = w
  \/ exists docs lead lead_id u,
       db w = Some docs
       /\ first_with_thread (r_threadId r) docs = Some lead
       /\ u !! "thread_id" = None
       /\ (snd (process_reply r w) = snd (update_lead lead_id u w)
           \/ snd (process_reply r w)
              = snd (GmailAPI.mark_as_read (r_id r) (snd (update_lead lead_id u w)))).
Proof.
  remember (process_reply r w) as res eqn:Hres.
  unfold process_reply in Hres. unfold mbind at 1 in Hres. unfold M_bind at 1 in Hres.
  rewrite get_lead_by_thread_id_eq in Hres.
  destruct (db w) as [docs|] eqn:Hdb; cbn [mbind option_bind] in Hres;
    [|left; subst res; reflexivity].
  destruct (first_with_thread (r_threadId r) docs) as [lead|] eqn:Hfirst;
    [|left; subst res; reflexivity].
  rewrite (found_first_with_thread _ _ _ Hfirst) in Hres.
  unfold mbind, M_bind, lift, getitem, time_time, gets in Hres.
  destruct (lead !! "email"); [|left; subst res; reflexivity].
  destruct (classify_response (gemini w) (r_snippet r)) as [c|];
    [|left; subst res; reflexivity].
  destruct (lead !! "id") as [lead_id|]; [|left; subst res; reflexivity].
  cbn beta iota in Hres.
  set (u := reply_updates _ _ _) in Hres.
  right. exists docs, lead, lead_id, u.
  split; [first [exact Hdb | reflexivity]|].
  split; [first [exact Hfirst | reflexivity]|]. split.
  - unfold u, reply_updates. rewrite !lookup_insert_ne by discriminate.
    apply lookup_empty.
  - destruct (update_lead lead_id u w) as [[[]|e] w1]; [|left; subst res; reflexivity].
    right. cbn [snd].
    destruct (GmailAPI.mark_as_read (r_id r) w1) as [[[]|] w2]; subst res; reflexivity.
Qed.

Lemma first_with_thread_update (t i : string) (u : dict) (docs : list (string * dict)) :
  u !! "thread_id" = None ->
  first_with_thread t docs = None ->
  first_with_thread t (update_doc i u docs) = None.
Proof.
  intros Hu. induction docs as [|[j d] docs IH]; [reflexivity|].
  cbn [first_with_thread update_doc].
  destruct (String.eqb j i); cbn [first_with_thread].
  - rewrite (lookup_union_r u d) by exact Hu.
    destruct (d !! "thread_id") as [[]|]; try (intros H; exact H).
    destruct (String.eqb s t); [discriminate | intros H; exact H].
  - destruct (d !! "thread_id") as [[]|]; try exact IH.
    destruct (String.eqb s t); [discriminate | exact IH].
Qed.

Section Unmatched.

(** A message [m] of the mailbox on a thread no lead has. *)
Variable m : message.

Lemma waiting_update_lead (lead_id : pyval) (u : dict) (w : world) :
  u !! "thread_id" = None ->
  waiting m w -> waiting m (snd (update_lead lead_id u w)).
Proof.
  intros Hu Hw.
  destruct (update_lead_world lead_id u w) as [->|(i & docs & d0 & -> & Hdb & Hdoc & ->)];
    [exact Hw|].
  destruct Hw as (Hs & Hl & Hin & Huniq & Hnone).
  repeat split; try assumption.
  rewrite get_lead_by_thread_id_eq in *. cbn [snd fst db set_db mbind option_bind] in *.
  rewrite Hdb in Hnone. cbn [mbind option_bind] in Hnone.
  injection Hnone as Hnone.
  rewrite (first_with_thread_update _ _ _ _ Hu Hnone). reflexivity.
Qed.

Lemma waiting_mark_as_read (message_id : string) (w : world) :
  message_id <> m_id m ->
  waiting m w -> waiting m (snd (GmailAPI.mark_as_read message_id w)).
Proof.
  intros Hne Hw.
  destruct (mark_as_read_world message_id w) as [->| ->]; [exact Hw|].
  destruct Hw as (Hs & Hl & Hin & Huniq & Hnone).
  assert (Hm : GmailAPI.remove_unread message_id m = m).
  { unfold GmailAPI.remove_unread.
    destruct (String.eqb_spec (m_id m) message_id); [congruence | reflexivity]. }
  repeat split; try assumption.
  - cbn [inbox set_inbox]. rewrite <- Hm. apply in_map. exact Hin.
  - cbn [inbox set_inbox]. intros m' Hin' Hid.
    apply in_map_iff in Hin' as (m0 & <- & Hin0).
    assert (Hid0 : m_id (GmailAPI.remove_unread message_id m0) = m_id m0).
    { unfold GmailAPI.remove_unread. destruct (String.eqb _ _); reflexivity. }
    rewrite Hid0 in Hid. rewrite (Huniq m0 Hin0 Hid). exact Hm.
  - rewrite get_lead_by_thread_id_eq in *. exact Hnone.
Qed.

Lemma waiting_process_reply (r : reply) (w : world) :
  agrees m r -> waiting m w -> waiting m (snd (process_reply r w)).
Proof.
  intros Hr Hw.
  destruct (process_reply_world r w)
    as [->|(docs & lead & lead_id & u & Hdb & Hfirst & Hu & [-> | ->])];
    [exact Hw | apply waiting_update_lead; assumption |].
  apply waiting_mark_as_read; [|apply waiting_update_lead; assumption].
  intros Hid. specialize (Hr Hid).
  destruct Hw as (_ & _ & _ & _ & Hnone).
  rewrite get_lead_by_thread_id_eq, Hdb in Hnone. cbn [fst mbind option_bind] in Hnone.
  rewrite <- Hr, Hfirst in Hnone. discriminate.
Qed.

Lemma waiting_for_each (l : list reply) (w : world) :
  Forall (agrees m) l -> waiting m w -> waiting m (snd (for_each process_reply l w)).
Proof.
  intros Hl. revert w. induction Hl as [|r l Hr Hl IH]; intros w Hw; [exact Hw|].
  cbn [for_each]. unfold mbind, M_bind.
  pose proof (waiting_process_reply r w Hr Hw) as Hw1.
  destruct (process_reply r w) as [[[]|e] w1]; cbn [snd] in *; [apply IH|]; exact Hw1.
Qed.

Lemma waiting_candidates (w : world) :
  waiting m w ->
  candidates w = List.map GmailAPI.reply_of
                   (List.filter GmailAPI.is_reply (List.filter GmailAPI.in_query (inbox w)))
  /\ Forall (agrees m) (candidates w).
Proof.
  intros (Hs & Hl & Hin & Huniq & Hnone).
  assert (Hc : candidates w = List.map GmailAPI.reply_of
             (List.filter GmailAPI.is_reply (List.filter GmailAPI.in_query (inbox w)))).
  { unfold candidates, GmailAPI.get_replies. rewrite Hs, Hl. reflexivity. }
  split; [exact Hc|]. rewrite Hc. apply Forall_forall. intros r Hr.
  apply list_elem_of_In in Hr. apply in_map_iff in Hr as (m0 & <- & Hin0).
  apply filter_In in Hin0 as [Hin0 _]. apply filter_In in Hin0 as [Hin0 _].
  intros Hid. cbn in Hid. rewrite (Huniq m0 Hin0 Hid). reflexivity.
Qed.

Lemma waiting_check_replies (w : world) :
  waiting m w -> waiting m (snd (check_replies w)).
Proof.
  intros Hw. destruct (waiting_candidates w Hw) as [_ Hall].
  unfold check_replies, try_catch, check_replies_try.
  unfold mbind at 1. unfold M_bind at 1. unfold candidates in Hall.
  pose proof (get_replies_world w) as Hgw.
  destruct (GmailAPI.get_replies w) as [[l|e] w1]; cbn [fst snd] in *; subst w1;
    [|exact Hw].
  destruct l as [|r l]; [exact Hw|].
  pose proof (waiting_for_each (r :: l) w Hall Hw) as H.
  destruct (for_each process_reply (r :: l) w) as [[[]|e] w2]; exact H.
Qed.

Lemma waiting_cycles (n : nat) (w : world) : waiting m w -> waiting m (cycles n w).
Proof.
  revert w. induction n as [|n IH]; intros w Hw; [exact Hw|].
  cbn [cycles]. apply IH, waiting_check_replies, Hw.
Qed.

End Unmatched.

(** C10: a reply candidate on a thread that matches no lead is processed
    without any effect -- no store update, no mark -- and, the message
    being left unread, every later poll cycle fetches it again as a
    candidate, still unmatched. *)
Theorem unmatched_reply_fetched_again (w : world) (m : message) :
  service w = true ->
  list_fails w = false ->
  In m (inbox w) ->
  GmailAPI.in_query m = true ->
  GmailAPI.is_reply m = true ->
  (forall m', In m' (inbox w) -> m_id m' = m_id m -> m' = m) ->
  fst (get_lead_by_thread_id (m_threadId m) w) = Ok None ->
  In (GmailAPI.reply_of m) (candidates w)
  /\ process_reply (GmailAPI.reply_of m) w = (Ok tt, w)
  /\ forall n : nat,
       In m (inbox (cycles n w))
       /\ In (GmailAPI.reply_of m) (candidates (cycles n w))
       /\ process_reply (GmailAPI.reply_of m) (cycles n w) = (Ok tt, cycles n w).
Proof.
  intros Hs Hl Hin Hq Hre Huniq Hnone.
  assert (Hw : waiting m w) by (repeat split; assumption).
  assert (Hgen : forall w', waiting m w' ->
            In m (inbox w') /\ In (GmailAPI.reply_of m) (candidates w')
            /\ process_reply (GmailAPI.reply_of m) w' = (Ok tt, w')).
  { intros w' Hw'. pose proof Hw' as (_ & _ & Hin' & _ & Hnone').
    destruct (waiting_candidates m w' Hw') as [Hc _].
    split; [exact Hin'|]. split.
    - rewrite Hc. apply in_map. apply filter_In. split; [|exact Hre].
      apply filter_In. split; [exact Hin' | exact Hq].
    - unfold process_reply. unfold mbind at 1. unfold M_bind at 1.
      rewrite get_lead_by_thread_id_eq in *. cbn [fst] in Hnone'.
      cbn [GmailAPI.reply_of r_threadId].
      injection Hnone' as ->. reflexivity. }
  destruct (Hgen w Hw) as (_ & Hc & Hp). split; [exact Hc|]. split; [exact Hp|].
  intros n. apply Hgen, waiting_cycles, Hw.
Qed.

Lemma unmatched_reply_fetched_again_witness :
  In (GmailAPI.reply_of stray) (candidates world_stray)
  /\ process_reply (GmailAPI.reply_of stray) world_stray = (Ok tt, world_stray)
  /\ forall n : nat,
       In stray (inbox (cycles n world_stray))
       /\ In (GmailAPI.reply_of stray) (candidates (cycles n world_stray))
       /\ process_reply (GmailAPI.reply_of stray) (cycles n world_stray)
          = (Ok tt, cycles n world_stray).
Proof.
  apply (unmatched_reply_fetched_again world_stray stray); try reflexivity.
  - right. left. reflexivity.
  - intros m' [<-|[<-|[]]]; [discriminate | reflexivity].
Defined.

End UnmatchedFacts.

Module FollowUpFacts.
Import PyStr PyVal Config Integrations AiEngine Database Automation Examples.
Import ColdEmailFacts StoreFacts UnmatchedFacts.

(** A field the update does not name keeps its value, in every document. *)
Lemma field_update_lead (lead_id : pyval) (u : dict) (w : world) (i k : string) :
  u !! k = None -> field (snd (update_lead lead_id u w)) i k = field w i k.
Proof.
  intros Hu.
  destruct (update_lead_world lead_id u w) as [->|(j & docs & d0 & -> & Hdb & Hdoc & ->)];
    [reflexivity|].
  unfold field. cbn [snd db set_db]. rewrite Hdb. cbn [mbind option_bind].
  destruct (String.eqb_spec j i) as [->|Hne].
  - rewrite (find_doc_update_same _ _ _ _ Hdoc), Hdoc. cbn [mbind option_bind].
    apply lookup_union_r, Hu.
  - rewrite (find_doc_update_other _ _ _ _ Hne). reflexivity.
Qed.

Lemma ids_update_doc (i : string) (u : dict) (docs : list (string * dict)) :
  List.map fst (update_doc i u docs) = List.map fst docs.
Proof.
  induction docs as [|[j d] docs IH]; [reflexivity|]. cbn [update_doc].
  destruct (String.eqb j i); cbn [List.map fst]; [reflexivity | f_equal; exact IH].
Qed.

(** [update_lead] touches the store only: same mailbox, same log of send
    calls, same documents by id. *)
Lemma update_lead_rest (lead_id : pyval) (u : dict) (w : world) :
  let w' := snd (update_lead lead_id u w) in
  inbox w' = inbox w /\ send_calls w' = send_calls w
  /\ option_map (List.map fst) (db w') = option_map (List.map fst) (db w).
Proof.
  destruct (update_lead_world lead_id u w) as [->|(j & docs & d0 & -> & Hdb & Hdoc & ->)];
    [auto|].
  cbn [snd inbox send_calls db set_db]. rewrite Hdb. cbn [option_map].
  rewrite ids_update_doc. auto.
Qed.



(** The message [send_follow_up] hands to the gateway. *)
Lemma follow_up_try_run (lead : dict) (w : world) (name company recipient : pyval) :
  lead !! "name" = Some name -> lead !! "company" = Some company ->
  lead !! "email" = Some recipient ->
  let mail := (recipient, follow_up_subject company, follow_up_body name) in
  let w1 := set_send_calls (fun l => (l ++ [mail])%list) w in
  match delivered (gateway_answer w (length (send_calls w)) mail) with
  | None => snd (follow_up_try lead w) = w1
  | Some thread_id =>
      snd (follow_up_try lead w) = w1
      \/ exists lead_id sc,
           lead !! "id" = Some lead_id
           /\ add_one (dict_get lead "sent_count" (PInt 0)) = Ok sc
           /\ snd (follow_up_try lead w)
              = snd (update_lead lead_id (follow_up_updates (PFloat (now w)) sc) w1)
  end.
Proof.
  intros Hname Hcompany Hemail mail w1.
  remember (follow_up_try lead w) as res eqn:Hres.
  unfold follow_up_try, mbind, M_bind, lift, getitem, time_time, gets in Hres.
  rewrite Hname, Hcompany, Hemail in Hres.
  unfold GmailAPI.send_email in Hres. fold mail in Hres. fold w1 in Hres.
  unfold delivered, gateway_answer. cbn [fst snd mail].
  destruct (negb (service w)); [subst res; reflexivity|].
  destruct (send_result w (length (send_calls w)) recipient
              (follow_up_subject company) (follow_up_body name)) as [thread_id|e];
    [|subst res; reflexivity].
  destruct (truthy thread_id); [|subst res; reflexivity].
  destruct (lead !! "id") as [lead_id|]; [|left; subst res; reflexivity].
  cbn beta iota in Hres.
  destruct (add_one (dict_get lead "sent_count" (PInt 0))) as [sc|];
    [|left; subst res; reflexivity].
  right. exists lead_id, sc. split; [reflexivity|]. split; [reflexivity|].
  change (now w1) with (now w) in Hres.
  destruct (update_lead lead_id _ w1) as [[[]|e] w2]; subst res; reflexivity.
Qed.

Lemma send_follow_up_no_email (lead : dict) (step : pyval) (w : world) :
  lead !! "email" = None ->
  send_follow_up lead step w = (Raise (KeyError "email"), w).
Proof.
  intros H. unfold send_follow_up, mbind, M_bind, lift, getitem. rewrite H. reflexivity.
Qed.

Lemma send_follow_up_email (lead : dict) (step : pyval) (w : world) :
  is_Some (lead !! "email") ->
  fst (send_follow_up lead step w) = Ok tt
  /\ snd (send_follow_up lead step w) = snd (follow_up_try lead w).
Proof.
  intros [recipient H].
  unfold send_follow_up, try_catch, mbind, M_bind, lift, getitem, mret, M_ret.
  rewrite H.
  destruct (follow_up_try lead w) as [[[]|e] w1]; split; reflexivity.
Qed.



End FollowUpFacts.

Module MonitorFacts.
Import PyStr PyVal Config Integrations AiEngine Database Automation Examples.
Import StoreFacts PollFacts CycleFacts.
Local Open Scope nat_scope.

Lemma exec_app (a b : list event) (m : monitor) :
  exec (a ++ b) m = exec b (exec a m).
Proof. unfold exec. apply fold_left_app. Qed.

Lemma ticks_app (a b : list event) : ticks (a ++ b) = ticks a + ticks b.
Proof. unfold ticks. rewrite List.filter_app, length_app. reflexivity. Qed.

Lemma stops_app (a b : list event) : stops (a ++ b) = stops a || stops b.
Proof. unfold stops. apply existsb_app. Qed.

(** Calls of [stop] alone set the flag and nothing else. *)
Lemma exec_no_ticks (evs : list event) (m : monitor) :
  ticks evs = 0 ->
  exec evs m
  = Monitor (stop_event m || stops evs) (interval m) (at_phase m) (mworld m).
Proof.
  revert m. induction evs as [|[] evs IH]; intros m H.
  - destruct m. cbn. rewrite orb_false_r. reflexivity.
  - discriminate.
  - change (exec (Stop :: evs) m) with (exec evs (stop m)).
    rewrite IH by exact H. cbn. rewrite orb_true_r. reflexivity.
Qed.

(** A schedule with a tick, cut at its first tick. *)
Lemma first_tick (evs : list event) (n : nat) :
  ticks evs = S n ->
  exists pre post, evs = (pre ++ Tick :: post)%list /\ ticks pre = 0 /\ ticks post = n.
Proof.
  induction evs as [|[] evs IH]; intros H.
  - discriminate.
  - exists [], evs. injection H as H. auto.
  - destruct (IH H) as (pre & post & -> & Hpre & Hpost).
    exists (Stop :: pre), post. auto.
Qed.

Lemma exec_first_tick (pre post : list event) (m : monitor) :
  ticks pre = 0 ->
  exec (pre ++ Tick :: post)%list m
  = exec post (tick (Monitor (stop_event m || stops pre) (interval m)
                             (at_phase m) (mworld m))).
Proof.
  intros H. rewrite exec_app, (exec_no_ticks pre m H). reflexivity.
Qed.

(** The [for] loop, once entered, runs to the end of the cycle whatever
    the calls of [stop] interleaved with it. *)
Lemma processing_completes (todo : list reply) (w : world) :
  exists n, 0 < n /\ forall (flag : bool) (secs : Z) (evs : list event),
    (ticks evs < n ->
     in_cycle (at_phase (exec evs (Monitor flag secs (Processing todo) w))) = true)
    /\ (ticks evs = n ->
        exec evs (Monitor flag secs (Processing todo) w)
        = Monitor (flag || stops evs) secs Sleeping (cycle_end todo w)).
Proof.
  revert w. induction todo as [|r todo IH]; intros w.
  - exists 1. split; [lia|]. intros flag secs evs. split.
    + intros H. rewrite exec_no_ticks by lia. reflexivity.
    + intros H. destruct (first_tick evs 0 H) as (pre & post & -> & Hpre & Hpost).
      rewrite exec_first_tick by exact Hpre. cbn [tick at_phase goto stop_event interval mworld].
      unfold goto. cbn [stop_event interval at_phase mworld].
      rewrite exec_no_ticks by exact Hpost. cbn [stop_event interval at_phase mworld].
      rewrite stops_app. cbn [stops existsb]. rewrite orb_false_l, orb_assoc. reflexivity.
  - destruct (process_reply r w) as [[[]|e] w1] eqn:Hp.
    + destruct (IH w1) as (n & Hn & Hrest). exists (S n). split; [lia|].
      intros flag secs evs. split.
      * intros H. destruct (ticks evs) as [|k] eqn:Hk.
        -- rewrite exec_no_ticks by exact Hk. reflexivity.
        -- destruct (first_tick evs k Hk) as (pre & post & -> & Hpre & Hpost).
           rewrite exec_first_tick by exact Hpre.
           cbn [tick at_phase goto stop_event interval mworld]. rewrite Hp.
        unfold goto. cbn [stop_event interval at_phase mworld].
           apply Hrest. lia.
      * intros H. destruct (first_tick evs n H) as (pre & post & -> & Hpre & Hpost).
        rewrite exec_first_tick by exact Hpre.
        cbn [tick at_phase goto stop_event interval mworld]. rewrite Hp.
        unfold goto. cbn [stop_event interval at_phase mworld].
        rewrite (proj2 (Hrest _ _ _) Hpost).
        rewrite stops_app. cbn [stops existsb]. rewrite orb_false_l, orb_assoc.
        unfold cycle_end, try_catch. cbn [for_each]. unfold mbind, M_bind.
        rewrite Hp. reflexivity.
    + exists 1. split; [lia|]. intros flag secs evs. split.
      * intros H. rewrite exec_no_ticks by lia. reflexivity.
      * intros H. destruct (first_tick evs 0 H) as (pre & post & -> & Hpre & Hpost).
        rewrite exec_first_tick by exact Hpre.
        cbn [tick at_phase goto stop_event interval mworld]. rewrite Hp.
        unfold goto. cbn [stop_event interval at_phase mworld].
        rewrite exec_no_ticks by exact Hpost. cbn [stop_event interval at_phase mworld].
        rewrite stops_app. cbn [stops existsb]. rewrite orb_false_l, orb_assoc.
        unfold cycle_end, try_catch. cbn [for_each]. unfold mbind, M_bind.
        rewrite Hp. reflexivity.
Qed.

(** [check_replies] in terms of the loop it runs. *)
Lemma check_replies_cycle_end (w : world) :
  snd (check_replies w) = cycle_end (candidates w) w.
Proof.
  unfold check_replies, cycle_end, try_catch, check_replies_try, candidates.
  unfold mbind at 1. unfold M_bind at 1.
  pose proof (get_replies_world w) as Hw.
  destruct (GmailAPI.get_replies w) as [[l|e] w1]; cbn [fst snd] in *; subst w1.
  - destruct l; reflexivity.
  - reflexivity.
Qed.

(** A poll cycle, once begun, runs to its end whatever the calls of
    [stop] interleaved with it: the steps of the thread compute
    [check_replies]. *)
Lemma polling_completes (w : world) :
  exists n, 0 < n /\ forall (flag : bool) (secs : Z) (evs : list event),
    (ticks evs < n ->
     in_cycle (at_phase (exec evs (Monitor flag secs Polling w))) = true)
    /\ (ticks evs = n ->
        exec evs (Monitor flag secs Polling w)
        = Monitor (flag || stops evs) secs Sleeping (snd (check_replies w))).
Proof.
  rewrite check_replies_cycle_end. unfold candidates.
  pose proof (get_replies_world w) as Hw.
  destruct (GmailAPI.get_replies w) as [[l|e] w1] eqn:Hg; cbn [fst snd] in *; subst w1.
  - destruct l as [|r l].
    + exists 1. split; [lia|]. intros flag secs evs. split.
      * intros H. rewrite exec_no_ticks by lia. reflexivity.
      * intros H. destruct (first_tick evs 0 H) as (pre & post & -> & Hpre & Hpost).
        rewrite exec_first_tick by exact Hpre.
        cbn [tick at_phase goto stop_event interval mworld]. rewrite Hg.
        unfold goto. cbn [stop_event interval at_phase mworld].
        rewrite exec_no_ticks by exact Hpost. cbn [stop_event interval at_phase mworld].
        rewrite stops_app. cbn [stops existsb]. rewrite orb_false_l, orb_assoc.
        reflexivity.
    + destruct (processing_completes (r :: l) w) as (n & Hn & Hrest).
      exists (S n). split; [lia|]. intros flag secs evs. split.
      * intros H. destruct (ticks evs) as [|k] eqn:Hk.
        -- rewrite exec_no_ticks by exact Hk. reflexivity.
        -- destruct (first_tick evs k Hk) as (pre & post & -> & Hpre & Hpost).
           rewrite exec_first_tick by exact Hpre.
           cbn [tick at_phase goto stop_event interval mworld]. rewrite Hg.
        unfold goto. cbn [stop_event interval at_phase mworld].
           apply Hrest. lia.
      * intros H. destruct (first_tick evs n H) as (pre & post & -> & Hpre & Hpost).
        rewrite exec_first_tick by exact Hpre.
        cbn [tick at_phase goto stop_event interval mworld]. rewrite Hg.
        unfold goto. cbn [stop_event interval at_phase mworld].
        rewrite (proj2 (Hrest _ _ _) Hpost).
        rewrite stops_app. cbn [stops existsb]. rewrite orb_false_l, orb_assoc.
        reflexivity.
  - exists 1. split; [lia|]. intros flag secs evs. split.
    + intros H. rewrite exec_no_ticks by lia. reflexivity.
    + intros H. destruct (first_tick evs 0 H) as (pre & post & -> & Hpre & Hpost).
      rewrite exec_first_tick by exact Hpre.
      cbn [tick at_phase goto stop_event interval mworld]. rewrite Hg.
        unfold goto. cbn [stop_event interval at_phase mworld].
      rewrite exec_no_ticks by exact Hpost. cbn [stop_event interval at_phase mworld].
      rewrite stops_app. cbn [stops existsb]. rewrite orb_false_l, orb_assoc.
      reflexivity.
Qed.

(** From the sleep, with the flag set: the sleep ends, the test sees the
    flag, [run] returns; no cycle is begun. *)
Lemma sleeping_then_returns (secs : Z) (w : world) (evs : list event) :
  ticks evs = 2 ->
  exec evs (Monitor true secs Sleeping w)
  = Monitor true secs Returned (snd (time_sleep secs w)).
Proof.
  intros H. destruct (first_tick evs 1 H) as (pre & post & -> & Hpre & Hpost).
  rewrite exec_first_tick by exact Hpre.
  cbn [tick at_phase goto stop_event interval mworld orb]. unfold goto.
  cbn [stop_event interval at_phase mworld].
  destruct (first_tick post 0 Hpost) as (pre' & post' & -> & Hpre' & Hpost').
  rewrite exec_first_tick by exact Hpre'.
  cbn [tick at_phase goto stop_event interval mworld orb]. unfold goto.
  cbn [stop_event interval at_phase mworld].
  rewrite exec_no_ticks by exact Hpost'. reflexivity.
Qed.

(** C7: the stop flag is read at the test of the [while] loop only.
    [run] returns from that test and from nowhere else; a poll cycle in
    progress -- before the fetch, or half-way through the replies -- runs
    to its end under every interleaving with calls of [stop], the thread
    never leaving the cycle before; when [stop] was called during the
    cycle, [run] returns after the whole cycle and the sleep; when it was
    called during the sleep, [run] returns at the next test, no further
    cycle being started. *)
Theorem stop_observed_between_cycles :
  (forall (m : monitor) (e : event),
      at_phase (react m e) = Returned ->
      at_phase m = Returned
      \/ (e = Tick /\ at_phase m = Testing /\ stop_event m = true))
  /\ (forall (flag : bool) (secs : Z) (w : world),
        exists n, 0 < n /\ forall evs : list event,
          (ticks evs < n ->
           in_cycle (at_phase (exec evs (Monitor flag secs Polling w))) = true)
          /\ (ticks evs = n ->
              exec evs (Monitor flag secs Polling w)
              = Monitor (flag || stops evs) secs Sleeping (snd (check_replies w)))
          /\ (forall rest : list event,
                ticks evs = n -> flag || stops evs = true -> ticks rest = 2 ->
                exec (evs ++ rest) (Monitor flag secs Polling w)
                = Monitor true secs Returned
                    (snd (time_sleep secs (snd (check_replies w))))))
  /\ (forall (flag : bool) (secs : Z) (todo : list reply) (w : world),
        exists n, 0 < n /\ forall evs : list event,
          (ticks evs < n ->
           in_cycle (at_phase (exec evs (Monitor flag secs (Processing todo) w))) = true)
          /\ (ticks evs = n ->
              exec evs (Monitor flag secs (Processing todo) w)
              = Monitor (flag || stops evs) secs Sleeping (cycle_end todo w)))
  /\ (forall (flag : bool) (secs : Z) (w : world) (pre evs : list event),
        ticks pre = 0 -> flag || stops pre = true -> ticks evs = 2 ->
        exec (pre ++ evs) (Monitor flag secs Sleeping w)
        = Monitor true secs Returned (snd (time_sleep secs w))).
Proof.
  split; [|split; [|split]].
  - intros [flag secs p w] e H. destruct e; [|left; exact H].
    unfold react, tick, goto in H. cbn [at_phase stop_event mworld interval] in H.
    destruct p as [| |[|r todo]| |]; cbn [at_phase] in H; try discriminate.
    + destruct flag; [auto | discriminate].
    + destruct (GmailAPI.get_replies w) as [[[|]|] ?]; discriminate.
    + destruct (process_reply r w) as [[|] ?]; discriminate.
    + auto.
  - intros flag secs w. destruct (polling_completes w) as (n & Hn & H).
    exists n. split; [exact Hn|]. intros evs.
    split; [apply H|]. split; [apply H|].
    intros rest Hevs Hflag Hrest.
    rewrite exec_app, (proj2 (H flag secs evs) Hevs), Hflag.
    apply sleeping_then_returns, Hrest.
  - intros flag secs todo w. destruct (processing_completes todo w) as (n & Hn & H).
    exists n. split; [exact Hn|]. intros evs. apply H.
  - intros flag secs w pre evs Hpre Hflag Hevs.
    rewrite exec_app, (exec_no_ticks pre _ Hpre).
    cbn [stop_event interval at_phase mworld]. rewrite Hflag.
    apply sleeping_then_returns, Hevs.
Qed.

Lemma stop_observed_between_cycles_witness :
  exec [Stop; Tick; Tick] (Monitor false 60 Sleeping world_stray)
  = Monitor true 60 Returned (snd (time_sleep 60 world_stray)).
Proof.
  apply (proj2 (proj2 (proj2 stop_observed_between_cycles))
           false 60%Z world_stray [Stop] [Tick; Tick]); reflexivity.
Defined.

(** A run on a mailbox with one matched reply: [stop] is called while
    the reply is being processed; the cycle is completed (the lead is
    updated, the message marked), the thread sleeps, and [run] returns. *)
Example stop_mid_cycle_run :
  let w := world_with interested_snippet (answers "interested") in
  let m := exec [Tick; Tick; Stop; Tick; Tick; Tick; Tick] (Monitor false 60 Testing w) in
  at_phase m = Returned
  /\ stop_event m = true
  /\ field (mworld m) "L1" "status" = Some (PStr "Interested")
  /\ List.map m_unread (inbox (mworld m)) = [false]
  /\ now (mworld m) = (now w + 60000000)%Z.
Proof. vm_compute. repeat split; reflexivity. Qed.

End MonitorFacts.

Module CampaignFacts.
Import PyStr PyVal Config Integrations AiEngine Database Automation Examples.
Import StoreFacts UnmatchedFacts FollowUpFacts.

(** One turn of the loop on a well-formed lead: the gateway is called
    once, the lead is updated when the send succeeded, and the turn ends
    with the delay, whatever the gateway and the store did. *)
Lemma campaign_turn_run (campaign lead : dict) (w : world) (cid : pyval) :
  campaign !! "id" = Some cid ->
  well_formed_lead lead ->
  campaign_turn campaign lead w
  = (Ok tt,
     set_now (fun t => t + 1 * 1000000)
       (match delivered (gateway_answer w (length (send_calls w)) (mail_of lead)) with
        | Some thread_id =>
            snd (update_lead (PStr (lead_id_of lead))
                   (sent_updates thread_id (PFloat (now w)) cid (count_after lead))
                   (set_send_calls (fun l => (l ++ [mail_of lead])%list) w))
        | None => set_send_calls (fun l => (l ++ [mail_of lead])%list) w
        end)).
Proof.
  intros Hcid ([name Hn] & [company Hc] & [recipient He] & [i Hi] & [c Hcount]).
  assert (Hmail : mail_of lead = (recipient, campaign_subject company, campaign_body name)).
  { unfold mail_of, dict_get. rewrite Hn, Hc, He. reflexivity. }
  assert (Hid : lead_id_of lead = i) by (unfold lead_id_of; rewrite Hi; reflexivity).
  assert (Hca : count_after lead = c) by (unfold count_after; rewrite Hcount; reflexivity).
  rewrite Hmail, Hid, Hca.
  unfold campaign_turn, send_to_lead, try_catch, mbind, M_bind, lift, getitem,
    time_time, gets, GmailAPI.send_email, time_sleep, modify, gateway_answer, delivered.
  rewrite Hn, Hc, He, Hi, Hcid, Hcount. cbn [fst snd].
  destruct (negb (service w)); cbn [truthy]; [reflexivity|].
  destruct (send_result w _ _ _ _) as [thread_id|e]; [|reflexivity].
  destruct (truthy thread_id); [|reflexivity].
  cbn [now set_send_calls].
  destruct (update_lead _ _ _) as [[[]|e] w2]; reflexivity.
Qed.

Lemma update_lead_env (lead_id : pyval) (u : dict) (w : world) :
  let w' := snd (update_lead lead_id u w) in
  service w' = service w /\ send_result w' = send_result w /\ now w' = now w.
Proof.
  destruct (update_lead_world lead_id u w) as [->|(j & docs & d0 & -> & Hdb & Hdoc & ->)];
    cbn; auto.
Qed.

Lemma gateway_answer_ext (w w1 : world) (k : nat) (mail : pyval * string * string) :
  service w1 = service w -> send_result w1 = send_result w ->
  gateway_answer w1 k mail = gateway_answer w k mail.
Proof. intros Hs Hr. unfold gateway_answer. rewrite Hs, Hr. reflexivity. Qed.

(** The world after one turn, field by field. *)
Lemma turn_world_facts (lead : dict) (w : world) (cid : pyval) :
  let answer := delivered (gateway_answer w (length (send_calls w)) (mail_of lead)) in
  let w1 :=
    set_now (fun t => t + 1 * 1000000)
      (match answer with
       | Some thread_id =>
           snd (update_lead (PStr (lead_id_of lead))
                  (sent_updates thread_id (PFloat (now w)) cid (count_after lead))
                  (set_send_calls (fun l => (l ++ [mail_of lead])%list) w))
       | None => set_send_calls (fun l => (l ++ [mail_of lead])%list) w
       end) in
  send_calls w1 = (send_calls w ++ [mail_of lead])%list
  /\ service w1 = service w
  /\ send_result w1 = send_result w
  /\ now w1 = now w + 1000000
  /\ forall docs, db w = Some docs ->
       exists docs1,
         db w1 = Some docs1
         /\ (forall j, j <> lead_id_of lead -> find_doc j docs1 = find_doc j docs)
         /\ (forall d0, find_doc (lead_id_of lead) docs = Some d0 ->
             find_doc (lead_id_of lead) docs1
             = Some (match answer with
                     | Some thread_id =>
                         sent_updates thread_id (PFloat (now w)) cid (count_after lead) ∪ d0
                     | None => d0
                     end)).
Proof.
  intros answer w1. subst w1. destruct answer as [thread_id|].
  - set (u := sent_updates _ _ _ _).
    set (w0 := set_send_calls _ w).
    destruct (update_lead_env (PStr (lead_id_of lead)) u w0) as (Hs & Hr & Hn).
    destruct (update_lead_rest (PStr (lead_id_of lead)) u w0) as (_ & Hc & _).
    cbn [send_calls service send_result now set_now db].
    rewrite Hs, Hr, Hn, Hc. repeat (split; [reflexivity || (cbn; lia)|]).
    intros docs Hdb. rewrite update_lead_eq.
    change (db w0) with (db w). rewrite Hdb.
    destruct (find_doc (lead_id_of lead) docs) as [d|] eqn:Hdoc.
    + eexists. split; [reflexivity|]. split.
      * intros j Hj. apply find_doc_update_other. congruence.
      * intros d0 [= <-]. apply find_doc_update_same, Hdoc.
    + exists docs. cbn [snd]. split; [exact Hdb|]. split; [reflexivity|]. discriminate.
  - cbn [send_calls service send_result now set_now set_send_calls db].
    repeat (split; [reflexivity || lia|]).
    intros docs Hdb. exists docs. split; [exact Hdb|]. split; [reflexivity|]. auto.
Qed.

(** The loop over well-formed leads: it ends normally; every lead got its
    call of the gateway; each turn took its second; and the store differs
    from the initial one by the updates of the delivered leads. *)
Lemma campaign_loop (campaign : dict) (cid : pyval) (leads : list dict) :
  campaign !! "id" = Some cid ->
  Forall well_formed_lead leads ->
  forall w : world,
  exists w',
    for_each (campaign_turn campaign) leads w = (Ok tt, w')
    /\ send_calls w' = (send_calls w ++ (mail_of <$> leads))%list
    /\ service w' = service w
    /\ send_result w' = send_result w
    /\ now w' = now w + Z.of_nat (length leads) * 1000000
    /\ forall docs, db w = Some docs ->
         exists docs',
           db w' = Some docs'
           /\ (forall i, i ∉ (lead_id_of <$> leads) -> find_doc i docs' = find_doc i docs)
           /\ (NoDup (lead_id_of <$> leads) ->
               forall (k : nat) (lead d0 : dict),
                 leads !! k = Some lead ->
                 find_doc (lead_id_of lead) docs = Some d0 ->
                 find_doc (lead_id_of lead) docs'
                 = Some (match delivered (gateway_answer w (length (send_calls w) + k)
                                            (mail_of lead)) with
                         | Some thread_id =>
                             sent_updates thread_id
                               (PFloat (now w + Z.of_nat k * 1000000)) cid
                               (count_after lead) ∪ d0
                         | None => d0
                         end)).
Proof.
  intros Hcid Hwf. induction Hwf as [|lead leads Hlead Hwf IH]; intros w.
  - exists w. cbn [for_each fmap list_fmap length]. rewrite app_nil_r.
    repeat (split; [reflexivity || (cbn; lia)|]).
    intros docs Hdb. exists docs. split; [exact Hdb|]. split; [reflexivity|].
    intros _ k lead d0 Hk. rewrite lookup_nil in Hk. discriminate.
  - cbn [for_each]. unfold mbind at 1. unfold M_bind at 1.
    rewrite (campaign_turn_run campaign lead w cid Hcid Hlead).
    destruct (turn_world_facts lead w cid) as (Hc1 & Hs1 & Hr1 & Hn1 & Hdb1).
    set (w1 := set_now _ _) in *.
    destruct (IH w1) as (w' & Hrun & Hc & Hs & Hr & Hn & Hdb).
    exists w'. split; [exact Hrun|].
    split; [rewrite Hc, Hc1, <- app_assoc; reflexivity|].
    split; [congruence|]. split; [congruence|].
    split; [rewrite Hn, Hn1; cbn [length]; lia|].
    intros docs Hdocs.
    destruct (Hdb1 docs Hdocs) as (docs1 & Hdocs1 & Hother1 & Hsame1).
    destruct (Hdb docs1 Hdocs1) as (docs' & Hdocs' & Hother & Hsame).
    exists docs'. split; [exact Hdocs'|]. split.
    + intros i Hi. cbn [fmap list_fmap] in Hi. apply not_elem_of_cons in Hi as [Hne Hi].
      rewrite (Hother i Hi). apply Hother1. exact Hne.
    + intros Hnd k lead' d0 Hk Hd0. cbn [fmap list_fmap] in Hnd.
      apply NoDup_cons in Hnd as [Hfresh Hnd].
      destruct k as [|k]; cbn [lookup list_lookup] in Hk.
      * injection Hk as <-. rewrite (Hother _ Hfresh), (Hsame1 d0 Hd0).
        rewrite Nat.add_0_r. cbn [Z.of_nat]. rewrite Z.add_0_r. reflexivity.
      * assert (Hne : lead_id_of lead' <> lead_id_of lead).
        { intros Heq. apply Hfresh. rewrite <- Heq.
          apply list_elem_of_fmap_2. eapply list_elem_of_lookup_2. exact Hk. }
        rewrite (Hsame Hnd k lead' d0 Hk) by (rewrite Hother1; assumption).
        rewrite (gateway_answer_ext w w1) by assumption.
        rewrite Hc1, length_app, Hn1. cbn [length].
        replace (length (send_calls w) + 1 + k)%nat with (length (send_calls w) + S k)%nat by lia.
        replace (now w + 1000000 + Z.of_nat k * 1000000)
          with (now w + Z.of_nat (S k) * 1000000) by lia.
        reflexivity.
Qed.

(** [run_campaign_send] returns normally as soon as the campaign has a
    name and every lead an [email]: the handler of a turn reads nothing
    else. *)
Lemma run_campaign_send_returns (campaign : dict) (leads : list dict) (w : world) :
  is_Some (campaign !! "name") ->
  Forall (fun lead => is_Some (lead !! "email")) leads ->
  fst (run_campaign_send campaign leads w) = Ok tt.
Proof.
  intros [n Hn] Hall. unfold run_campaign_send, mbind, M_bind, lift, getitem.
  rewrite Hn. revert w. induction Hall as [|lead leads [e He] Hall IH]; intros w;
    [reflexivity|].
  cbn [for_each]. unfold mbind at 1. unfold M_bind at 1.
  assert (Hturn : exists w1, campaign_turn campaign lead w = (Ok tt, w1)).
  { unfold campaign_turn, try_catch, mbind, M_bind, lift, getitem, time_sleep, modify.
    rewrite He. destruct (send_to_lead campaign lead w) as [[[]|] w1]; eauto. }
  destruct Hturn as [w1 ->]. apply IH.
Qed.

(** Leads that carry the id of their document: for a campaign with a
    name and an id, well-formed leads with distinct ids, and a store that
    holds their documents and applies the updates,
    [run_campaign_send] returns normally; every lead, whatever happened to
    the leads before it, gets its call of the gateway, in order; and after
    the batch the document of a lead carries status "sent" (with the thread
    id, the campaign, the incremented count and the time of its turn) when
    its send returned a truthy thread id, and is unchanged when the gateway
    raised or returned nothing; documents of other leads are unchanged. *)
Theorem run_campaign_send_isolates_failures
  (campaign : dict) (leads : list dict) (w : world) (cid : pyval)
  (docs : list (string * dict)) :
  is_Some (campaign !! "name") ->
  campaign !! "id" = Some cid ->
  Forall well_formed_lead leads ->
  NoDup (lead_id_of <$> leads) ->
  db w = Some docs ->
  (forall lead, lead ∈ leads -> is_Some (find_doc (lead_id_of lead) docs)) ->
  fst (run_campaign_send campaign leads w) = Ok tt
  /\ send_calls (snd (run_campaign_send campaign leads w))
     = (send_calls w ++ (mail_of <$> leads))%list
  /\ (forall (k : nat) (lead : dict),
        leads !! k = Some lead ->
        match delivered (gateway_answer w (length (send_calls w) + k) (mail_of lead)) with
        | Some thread_id =>
            field (snd (run_campaign_send campaign leads w)) (lead_id_of lead) "status"
              = Some (PStr "sent")
            /\ field (snd (run_campaign_send campaign leads w)) (lead_id_of lead) "thread_id"
               = Some thread_id
            /\ field (snd (run_campaign_send campaign leads w)) (lead_id_of lead) "campaign_id"
               = Some cid
            /\ field (snd (run_campaign_send campaign leads w)) (lead_id_of lead) "sent_count"
               = Some (count_after lead)
            /\ field (snd (run_campaign_send campaign leads w)) (lead_id_of lead) "last_activity"
               = Some (PFloat (now w + Z.of_nat k * 1000000))
        | None =>
            forall key,
              field (snd (run_campaign_send campaign leads w)) (lead_id_of lead) key
              = field w (lead_id_of lead) key
        end)
  /\ (forall i key,
        i ∉ (lead_id_of <$> leads) ->
        field (snd (run_campaign_send campaign leads w)) i key = field w i key).
Proof.
  intros [n Hn] Hcid Hwf Hnd Hdb Hdocs.
  destruct (campaign_loop campaign cid leads Hcid Hwf w)
    as (w' & Hrun & Hcalls & _ & _ & _ & Hstore).
  destruct (Hstore docs Hdb) as (docs' & Hdb' & Hother & Hsame).
  assert (Hall : run_campaign_send campaign leads w = (Ok tt, w')).
  { unfold run_campaign_send, mbind, M_bind, lift, getitem. rewrite Hn. exact Hrun. }
  rewrite Hall. cbn [fst snd]. split; [reflexivity|]. split; [exact Hcalls|]. split.
  - intros k lead Hk.
    destruct (Hdocs lead (list_elem_of_lookup_2 _ _ _ Hk)) as [d0 Hd0].
    pose proof (Hsame Hnd k lead d0 Hk Hd0) as Hdoc.
    unfold field. rewrite Hdb', Hdb. cbn [mbind option_bind]. rewrite Hdoc, Hd0.
    cbn [mbind option_bind].
    destruct (delivered _) as [thread_id|]; [|reflexivity].
    unfold sent_updates. repeat split; apply lookup_union_Some_l.
    + apply lookup_insert_eq.
    + rewrite lookup_insert_ne by discriminate. apply lookup_insert_eq.
    + rewrite !lookup_insert_ne by discriminate. apply lookup_insert_eq.
    + rewrite !lookup_insert_ne by discriminate. apply lookup_insert_eq.
    + rewrite !lookup_insert_ne by discriminate. apply lookup_insert_eq.
  - intros i key Hi. unfold field. rewrite Hdb', Hdb. cbn [mbind option_bind].
    rewrite (Hother i Hi). reflexivity.
Qed.

Lemma run_campaign_send_isolates_failures_witness :
  let leads := [jane_new; john_new; mary_new] in
  let w' := snd (run_campaign_send campaign_1 leads world_campaign) in
  fst (run_campaign_send campaign_1 leads world_campaign) = Ok tt
  /\ send_calls w' = mail_of <$> leads
  /\ (field w' "L1" "status" = Some (PStr "sent")
      /\ field w' "L1" "thread_id" = Some (PStr "thread-0"))
  /\ (forall key, field w' "L2" key = field world_campaign "L2" key)
  /\ (field w' "L3" "status" = Some (PStr "sent")
      /\ field w' "L3" "thread_id" = Some (PStr "thread-2")).
Proof.
  intros leads w'.
  destruct (run_campaign_send_isolates_failures campaign_1 leads world_campaign
              (PStr "camp-1") [("L1", jane_new); ("L2", john_new); ("L3", mary_new)])
    as (Hok & Hcalls & Hleads & _).
  - eexists. reflexivity.
  - reflexivity.
  - repeat constructor; unfold well_formed_lead; repeat split; eexists; reflexivity.
  - apply (bool_decide_unpack _). vm_compute. exact I.
  - reflexivity.
  - intros lead Hin. apply list_elem_of_In in Hin. cbn in Hin.
    destruct Hin as [<-|[<-|[<-|[]]]]; eexists; reflexivity.
  - split; [exact Hok|]. split; [exact Hcalls|].
    pose proof (Hleads 0%nat jane_new eq_refl) as (H1 & H2 & _).
    pose proof (Hleads 1%nat john_new eq_refl) as H3.
    pose proof (Hleads 2%nat mary_new eq_refl) as (H4 & H5 & _).
    repeat split; assumption.
Defined.

(** Outside these conditions the call can raise: a campaign without a
    name, a lead without an [email]. *)
Example run_campaign_send_raises :
  fst (run_campaign_send ∅ [jane_new] world_campaign) = Raise (KeyError "name")
  /\ fst (run_campaign_send campaign_1 [∅; jane_new] world_campaign)
     = Raise (KeyError "email").
Proof. split; vm_compute; reflexivity. Qed.

(** C4, at the failing input: the leads are those
    [get_leads_for_campaign] returns for the campaign, the documents of
    the store by their fields, which have no [id].  Both sends are
    delivered with a thread id and the call returns normally, yet no lead
    is updated: [lead['id']] raises inside the [try] after the send, and
    the store is as it was, both leads still ["imported"] and without a
    thread id.  And with a lead that has no [email] the call raises to
    its caller, out of the [except] clause. *)
Theorem run_campaign_send_delivered_not_recorded :
  let leads := [jane_import; john_import] in
  let w' := snd (run_campaign_send campaign_1 leads world_import) in
  fst (get_leads_for_campaign "camp-1" world_import) = Ok leads
  /\ fst (run_campaign_send campaign_1 leads world_import) = Ok tt
  /\ send_calls w' = mail_of <$> leads
  /\ delivered (gateway_answer world_import 0 (mail_of jane_import))
     = Some (PStr "thread-0")
  /\ delivered (gateway_answer world_import 1 (mail_of john_import))
     = Some (PStr "thread-1")
  /\ db w' = db world_import
  /\ field w' "L1" "status" = Some (PStr "imported")
  /\ field w' "L1" "thread_id" = Some PNone
  /\ field w' "L2" "status" = Some (PStr "imported")
  /\ field w' "L2" "thread_id" = Some PNone
  /\ fst (run_campaign_send campaign_1 [delete "email" jane_import; john_import]
            world_import)
     = Raise (KeyError "email").
Proof. repeat split; vm_compute; reflexivity. Qed.

End CampaignFacts.

Module DatabaseFacts.
Import PyStr PyVal Config Integrations AiEngine Database Automation Examples.
Import StoreFacts UnmatchedFacts FollowUpFacts CampaignFacts.

(** The edges of [update_lead]: without a database the update is
    dropped silently (the [ConnectionError] is swallowed, the world is
    unchanged); on an id that names no document Firestore's [NotFound]
    comes out of [update_lead], the world unchanged; and no call ever
    raises [ConnectionError]. *)
Theorem update_lead_edges (lead_id : pyval) (i : string) (u : dict) (w : world) :
  (db w = None -> update_lead lead_id u w = (Ok tt, w))
  /\ (forall docs, db w = Some docs -> find_doc i docs = None ->
        update_lead (PStr i) u w = (Raise NotFound, w))
  /\ fst (update_lead lead_id u w) <> Raise ConnectionError.
Proof.
  split; [|split].
  - intros Hdb. unfold update_lead, try_catch_only, get_collection_ref, mbind, M_bind.
    rewrite Hdb. reflexivity.
  - intros docs Hdb Hdoc. rewrite update_lead_eq, Hdb, Hdoc. reflexivity.
  - unfold update_lead, try_catch_only, get_collection_ref, document_update, mbind, M_bind.
    destruct (db w) as [docs|] eqn:Hdb; [|discriminate].
    destruct lead_id; try discriminate.
    rewrite Hdb. destruct (find_doc s docs); discriminate.
Qed.

Lemma update_lead_edges_witness :
  update_lead (PStr "L7") (<["status" := PStr "booked"]> ∅)
    (world_with interested_snippet GeminiAPI_generate_content)
  = (Raise NotFound, world_with interested_snippet GeminiAPI_generate_content).
Proof.
  apply (proj1 (proj2 (update_lead_edges PNone "L7" (<["status" := PStr "booked"]> ∅)
                         (world_with interested_snippet GeminiAPI_generate_content)))
           [("L1", jane_doc); ("L2", john_doc)]); reflexivity.
Defined.

End DatabaseFacts.

Module LookupFacts.
Import PyStr PyVal Config Integrations AiEngine Database Automation Examples.
Import StoreFacts UnmatchedFacts FollowUpFacts CampaignFacts.

Lemma first_with_thread_In (t : string) (docs : list (string * dict)) (d : dict) :
  first_with_thread t docs = Some d -> exists i, In (i, d) docs.
Proof.
  induction docs as [|[i d'] docs IH]; [discriminate|]. cbn [first_with_thread].
  assert (Hrec : first_with_thread t docs = Some d -> exists j, In (j, d) ((i, d') :: docs)).
  { intros H. destruct (IH H) as [j Hj]. exists j. right. exact Hj. }
  destruct (d' !! "thread_id") as [[]|]; try exact Hrec.
  destruct (String.eqb s t); [|exact Hrec].
  intros [= <-]. exists i. left. reflexivity.
Qed.

Lemma first_with_thread_None (t : string) (docs : list (string * dict)) :
  first_with_thread t docs = None
  <-> forall i d, In (i, d) docs -> d !! "thread_id" <> Some (PStr t).
Proof.
  induction docs as [|[i d'] docs IH]; cbn [first_with_thread].
  - split; [intros _ i d [] | reflexivity].
  - split.
    + intros H j d [[= <- <-]|Hin].
      * destruct (d' !! "thread_id") as [[]|]; try discriminate.
        destruct (String.eqb_spec s t); [discriminate | congruence].
      * apply IH with (i := j); [|exact Hin].
        destruct (d' !! "thread_id") as [[]|]; try exact H.
        destruct (String.eqb s t); [discriminate | exact H].
    + intros H.
      assert (Hrest : first_with_thread t docs = None).
      { apply IH. intros j d Hin. apply (H j). right. exact Hin. }
      pose proof (H i d' (or_introl eq_refl)) as Hhead.
      destruct (d' !! "thread_id") as [[]|]; try exact Hrest.
      destruct (String.eqb_spec s t); [congruence | exact Hrest].
Qed.

(** [get_lead_by_thread_id], when it returns: it has changed nothing; a
    lead it returns is a stored document whose [thread_id] is the one
    asked for; and with a database it returns [None] exactly when no
    stored document has that [thread_id].  Without a database the
    [ConnectionError] of [get_collection_ref] is swallowed and [None] is
    returned. *)
Theorem get_lead_by_thread_id_sound_complete (thread_id : string) (w : world) :
  (forall r : option dict,
      fst (get_lead_by_thread_id thread_id w) = Ok r ->
      snd (get_lead_by_thread_id thread_id w) = w
      /\ (forall d, r = Some d ->
            d !! "thread_id" = Some (PStr thread_id)
            /\ exists docs i, db w = Some docs /\ In (i, d) docs)
      /\ (forall docs, db w = Some docs ->
            (r = None
             <-> forall i d, In (i, d) docs -> d !! "thread_id" <> Some (PStr thread_id))))
  /\ (db w = None -> get_lead_by_thread_id thread_id w = (Ok None, w)).
Proof.
  rewrite get_lead_by_thread_id_eq. cbn [fst snd]. split.
  - intros r [= <-]. split; [reflexivity|]. split.
    + intros d H. destruct (db w) as [docs|]; cbn [mbind option_bind] in H; [|discriminate].
      split; [exact (first_with_thread_Some _ _ _ H)|].
      destruct (first_with_thread_In _ _ _ H) as [i Hi]. eauto.
    + intros docs ->. cbn [mbind option_bind]. apply first_with_thread_None.
  - intros ->. reflexivity.
Qed.

Lemma get_lead_by_thread_id_sound_complete_witness :
  let w := world_with interested_snippet GeminiAPI_generate_content in
  jane_doc !! "thread_id" = Some (PStr "t1")
  /\ exists docs i, db w = Some docs /\ In (i, jane_doc) docs.
Proof.
  intros w.
  apply (proj1 (proj2 (proj1 (get_lead_by_thread_id_sound_complete "t1" w)
                         (Some jane_doc) eq_refl)) jane_doc eq_refl).
Defined.

End LookupFacts.

Module StatusFacts.
Import PyStr PyVal Config Integrations AiEngine Database Automation Examples.
Import AiEngineFacts StoreFacts PollFacts UnmatchedFacts FollowUpFacts CampaignFacts.

Lemma find_doc_In (i : string) (docs : list (string * dict)) (d : dict) :
  find_doc i docs = Some d -> In (i, d) docs.
Proof.
  induction docs as [|[j d'] docs IH]; [discriminate|]. cbn [find_doc].
  destruct (String.eqb_spec j i) as [->|]; [intros [= ->]; left; reflexivity|].
  intros H. right. apply IH, H.
Qed.

Lemma with_status_In (key : string) (docs : list (string * dict)) (d : dict) :
  In d (with_status key docs)
  <-> exists i, In (i, d) docs /\ d !! "status" = Some (PStr key).
Proof.
  unfold with_status. rewrite in_map_iff. split.
  - intros ([i d'] & <- & Hin). apply filter_In in Hin as [Hin Hst]. cbn in *.
    exists i. split; [exact Hin|].
    destruct (d' !! "status") as [[]|]; try discriminate.
    apply String.eqb_eq in Hst. congruence.
  - intros (i & Hin & Hst). exists (i, d). split; [reflexivity|].
    apply filter_In. split; [exact Hin|]. cbn. rewrite Hst. apply String.eqb_refl.
Qed.

Lemma with_campaign_In (key : string) (docs : list (string * dict)) (d : dict) :
  In d (with_campaign key docs)
  <-> exists i, In (i, d) docs /\ d !! "campaign_id" = Some (PStr key).
Proof.
  unfold with_campaign. rewrite in_map_iff. split.
  - intros ([i d'] & <- & Hin). apply filter_In in Hin as [Hin Hst]. cbn in *.
    exists i. split; [exact Hin|].
    destruct (d' !! "campaign_id") as [[]|]; try discriminate.
    apply String.eqb_eq in Hst. congruence.
  - intros (i & Hin & Hst). exists (i, d). split; [reflexivity|].
    apply filter_In. split; [exact Hin|]. cbn. rewrite Hst. apply String.eqb_refl.
Qed.

Lemma get_leads_by_status_eq (key : string) (w : world) :
  get_leads_by_status key w
  = (Ok (match db w with Some docs => with_status key docs | None => [] end), w).
Proof.
  unfold get_leads_by_status, try_catch_only, get_collection_ref, mbind, M_bind.
  destruct (db w); reflexivity.
Qed.

(** [get_leads_by_status], when it returns, has changed nothing and
    returns exactly the stored documents whose [status] is the text asked
    for; without a database the [ConnectionError] is swallowed and the
    list is empty.  [get_leads_for_campaign], with its
    [except Exception], never raises and changes nothing; without a
    database it returns the empty list, and every lead it returns is a
    stored document whose [campaign_id] is the text asked for. *)
Theorem status_and_campaign_queries (key : string) (w : world) :
  (forall l : list dict,
      fst (get_leads_by_status key w) = Ok l ->
      snd (get_leads_by_status key w) = w
      /\ (forall docs, db w = Some docs ->
            forall d, In d l
                      <-> exists i, In (i, d) docs /\ d !! "status" = Some (PStr key)))
  /\ (db w = None -> get_leads_by_status key w = (Ok [], w))
  /\ (exists l, get_leads_for_campaign key w = (Ok l, w)
        /\ (db w = None -> l = [])
        /\ (forall docs, db w = Some docs ->
              forall d, In d l ->
                        exists i, In (i, d) docs /\ d !! "campaign_id" = Some (PStr key))).
Proof.
  split; [|split].
  - rewrite get_leads_by_status_eq. cbn [fst snd]. intros l [= <-].
    split; [reflexivity|]. intros docs -> d. apply with_status_In.
  - intros Hdb. rewrite get_leads_by_status_eq, Hdb. reflexivity.
  - unfold get_leads_for_campaign, try_catch.
    destruct (db w) as [docs|]; cbn.
    + eexists. split; [reflexivity|]. split; [discriminate|].
      intros docs' [= <-] d. apply with_campaign_In.
    + exists []. repeat split; try reflexivity; try discriminate.
Qed.

Lemma status_and_campaign_queries_witness :
  exists i, In (i, john_doc) [("L1", jane_doc); ("L2", john_doc)]
            /\ john_doc !! "status" = Some (PStr "sent").
Proof.
  apply (proj1 (proj2 (proj1 (status_and_campaign_queries "sent"
                                (world_with interested_snippet GeminiAPI_generate_content))
                         [jane_doc; john_doc] eq_refl)
                  [("L1", jane_doc); ("L2", john_doc)] eq_refl john_doc)).
  right. left. reflexivity.
Defined.

(** The status a poll cycle can store is "Interested", "Not Interested"
    or "replied": the entries "Imported", "Email Sent" and "Replied" of
    [LEAD_STATUS_MAP] are never used by it, and none of the lower-case
    tokens is ever stored. *)
Lemma stored_status_range (g : generator) (snippet c : string) :
  classify_response g snippet = Ok c ->
  default "replied" (LEAD_STATUS_MAP !! c) ∈ ["Interested"; "Not Interested"; "replied"].
Proof.
  intros Hc. rewrite classify_response_cases in Hc.
  assert (Hin : c ∈ categories).
  { destruct (g (classify_prompt snippet)) as [[]|];
      try (injection Hc as <-; unfold categories; set_solver).
    case_bool_decide; injection Hc as <-; [assumption | unfold categories; set_solver]. }
  unfold categories in Hin.
  repeat (apply elem_of_cons in Hin as [->|Hin]); vm_compute; set_solver.
Qed.

(** The poll cycle and the status queries of the dashboard: the status
    stored for a matched reply is "Interested", "Not Interested" or
    "replied", never one of the tokens "interested", "not_interested",
    "imported" or "sent"; so no lead listed by [get_leads_by_status] for
    one of these four tokens has the status the cycle has just stored. *)
Theorem poll_cycle_status_not_a_token (r : reply) (w : world)
  (docs : list (string * dict)) (lead d0 : dict) (i : string) :
  db w = Some docs ->
  first_with_thread (r_threadId r) docs = Some lead ->
  is_Some (lead !! "email") ->
  lead !! "id" = Some (PStr i) ->
  find_doc i docs = Some d0 ->
  exists st,
    field (snd (process_reply r w)) i "status" = Some (PStr st)
    /\ st ∈ ["Interested"; "Not Interested"; "replied"]
    /\ forall token l d,
         token ∈ ["interested"; "not_interested"; "imported"; "sent"] ->
         fst (get_leads_by_status token (snd (process_reply r w))) = Ok l ->
         In d l ->
         d !! "status" <> Some (PStr st).
Proof.
  intros Hdb Hfirst He Hid Hdoc.
  assert (exists c, classify_response (gemini w) (r_snippet r) = Ok c) as [c Hc].
  { rewrite classify_response_cases.
    destruct (gemini w (classify_prompt (r_snippet r))) as [[]|]; eauto.
    case_bool_decide; eauto. }
  pose proof (stored_status_range _ _ _ Hc) as Hrange.
  set (st := default "replied" (LEAD_STATUS_MAP !! c)) in *.
  exists st. split; [|split; [exact Hrange|]].
  - rewrite (process_reply_matched r w docs lead d0 i c Hdb Hfirst He Hid Hdoc Hc).
    rewrite field_mark_as_read.
    apply (field_reply_updates w docs d0 i st (score_lead (r_snippet r))
             (PFloat (now w)) Hdoc).
  - intros token l d Htoken Hl Hin Hst.
    rewrite get_leads_by_status_eq in Hl. cbn [fst] in Hl. injection Hl as <-.
    destruct (db (snd (process_reply r w))) as [docs1|]; [|destruct Hin].
    apply with_status_In in Hin as (j & _ & Hst'). rewrite Hst' in Hst.
    injection Hst as <-.
    repeat (apply elem_of_cons in Htoken as [->|Htoken]);
      repeat (apply elem_of_cons in Hrange as [Hr|Hrange]); try discriminate;
      try (apply not_elem_of_nil in Hrange; destruct Hrange);
      try (apply not_elem_of_nil in Htoken; destruct Htoken).
Qed.

Lemma poll_cycle_status_not_a_token_witness :
  exists st,
    field (snd (process_reply (Reply "m1" "t1" interested_snippet "Re: hello")
                  (world_with interested_snippet (answers "interested")))) "L1" "status"
    = Some (PStr st)
    /\ st ∈ ["Interested"; "Not Interested"; "replied"].
Proof.
  destruct (poll_cycle_status_not_a_token
              (Reply "m1" "t1" interested_snippet "Re: hello")
              (world_with interested_snippet (answers "interested"))
              [("L1", jane_doc); ("L2", john_doc)] jane_doc jane_doc "L1")
    as (st & Hst & Hin & _); try reflexivity.
  - exists (PStr "jane@acme.com"). reflexivity.
  - exists st. split; assumption.
Defined.

End StatusFacts.


Module MailboxFacts.
Import PyStr PyVal Config Integrations AiEngine Database Automation Examples.
Import StoreFacts PollFacts.

Lemma replies_after_mark (message_id : string) (l : list message) :
  List.map GmailAPI.reply_of
    (List.filter GmailAPI.is_reply
       (List.filter GmailAPI.in_query (List.map (GmailAPI.remove_unread message_id) l)))
  = List.filter (fun r => negb (String.eqb (r_id r) message_id))
      (List.map GmailAPI.reply_of
         (List.filter GmailAPI.is_reply (List.filter GmailAPI.in_query l))).
Proof.
  induction l as [|m l IH]; [reflexivity|].
  cbn [List.map List.filter].
  destruct (String.eqb (m_id m) message_id) eqn:Hid.
  - assert (Hq : GmailAPI.in_query (GmailAPI.remove_unread message_id m) = false).
    { unfold GmailAPI.remove_unread. rewrite Hid. reflexivity. }
    rewrite Hq.
    destruct (GmailAPI.in_query m); [|exact IH].
    cbn [List.filter]. destruct (GmailAPI.is_reply m); [|exact IH].
    cbn [List.map List.filter GmailAPI.reply_of r_id]. rewrite Hid. exact IH.
  - assert (Hf : GmailAPI.remove_unread message_id m = m).
    { unfold GmailAPI.remove_unread. rewrite Hid. reflexivity. }
    rewrite Hf.
    destruct (GmailAPI.in_query m); [|exact IH].
    cbn [List.filter]. destruct (GmailAPI.is_reply m); [|exact IH].
    cbn [List.map List.filter GmailAPI.reply_of r_id]. rewrite Hid. cbn [negb].
    f_equal. exact IH.
Qed.

Lemma remove_unread_twice (message_id : string) (m : message) :
  GmailAPI.remove_unread message_id (GmailAPI.remove_unread message_id m)
  = GmailAPI.remove_unread message_id m.
Proof.
  unfold GmailAPI.remove_unread.
  destruct (String.eqb (m_id m) message_id) eqn:H; cbn [m_id]; rewrite H; reflexivity.
Qed.

(** [mark_as_read] never raises and touches the mailbox only.  When the
    service is there and the request succeeds, the marked message is not
    among the candidates of a later fetch, and every other reply that was
    a candidate still is; marking twice is marking once.  Without a
    service or when the request fails the world is unchanged. *)
Theorem mark_as_read_effect (message_id : string) (w : world) :
  fst (GmailAPI.mark_as_read message_id w) = Ok tt
  /\ db (snd (GmailAPI.mark_as_read message_id w)) = db w
  /\ (service w = true -> modify_fails w message_id = false ->
      (forall r : reply,
          In r (candidates (snd (GmailAPI.mark_as_read message_id w))) ->
          r_id r <> message_id)
      /\ (forall r : reply,
            In r (candidates w) -> r_id r <> message_id ->
            In r (candidates (snd (GmailAPI.mark_as_read message_id w)))))
  /\ GmailAPI.mark_as_read message_id (snd (GmailAPI.mark_as_read message_id w))
     = GmailAPI.mark_as_read message_id w
  /\ (service w = false \/ modify_fails w message_id = true ->
      GmailAPI.mark_as_read message_id w = (Ok tt, w)).
Proof.
  unfold GmailAPI.mark_as_read.
  destruct (service w) eqn:Hs; cbn [negb].
  - destruct (modify_fails w message_id) eqn:Hm; cbn [fst snd].
    + rewrite Hs, Hm. cbn [negb]. repeat split; try reflexivity; discriminate.
    + cbn [service modify_fails set_inbox db inbox]. rewrite Hs, Hm. cbn [negb].
      split; [reflexivity|]. split; [reflexivity|]. split; [|split].
      * intros _ _. unfold candidates, GmailAPI.get_replies.
        cbn [service list_fails inbox set_inbox]. rewrite Hs. cbn [negb].
        destruct (list_fails w); cbn [fst]; [split; intros r []|].
        rewrite replies_after_mark. split.
        -- intros r Hin Hid. apply List.filter_In in Hin as [_ Hneg].
           rewrite Hid, String.eqb_refl in Hneg. discriminate.
        -- intros r Hin Hid. apply List.filter_In. split; [exact Hin|].
           apply negb_true_iff, String.eqb_neq, Hid.
      * unfold set_inbox. cbn [db service inbox list_fails modify_fails send_result
                                 send_calls gemini now].
        f_equal. f_equal. rewrite List.map_map.
        apply List.map_ext. intros m. apply remove_unread_twice.
      * intros [H|H]; discriminate.
  - cbn [fst snd]. rewrite Hs. cbn [negb]. repeat split; try reflexivity; discriminate.
Qed.

Lemma mark_as_read_effect_witness :
  In reply_m2 (candidates (snd (GmailAPI.mark_as_read "m1" (world_two jane_saved)))).
Proof.
  apply (proj2 (proj1 (proj2 (proj2 (mark_as_read_effect "m1" (world_two jane_saved))))
                  eq_refl eq_refl) reply_m2).
  - right. left. reflexivity.
  - discriminate.
Defined.

End MailboxFacts.

Module PollFrameFacts.
Import PyStr PyVal Config Integrations AiEngine Database Automation Examples.
Import StoreFacts PollFacts CycleFacts UnmatchedFacts FollowUpFacts MonitorFacts MailboxFacts.

Lemma poll_frame_refl (w : world) : poll_frame w w.
Proof. unfold poll_frame. repeat split; auto. Qed.

Lemma poll_frame_trans (w1 w2 w3 : world) :
  poll_frame w1 w2 -> poll_frame w2 w3 -> poll_frame w1 w3.
Proof.
  unfold poll_frame.
  intros (A1 & A2 & A3 & A4 & A5 & A6 & A7 & A8 & A9)
         (B1 & B2 & B3 & B4 & B5 & B6 & B7 & B8 & B9).
  repeat split; try congruence.
  intros i k H1 H2 H3. rewrite (B9 i k H1 H2 H3). apply A9; assumption.
Qed.

Lemma poll_frame_update_lead (lead_id : pyval) (new_status score : string) (t : pyval)
  (w : world) :
  poll_frame w (snd (update_lead lead_id (reply_updates new_status t score) w)).
Proof.
  set (u := reply_updates new_status t score).
  assert (Hfield : forall i k : string,
             k <> "status" -> k <> "last_activity" -> k <> "score" ->
             field (snd (update_lead lead_id u w)) i k = field w i k).
  { intros i k H1 H2 H3. apply field_update_lead.
    unfold u, reply_updates. rewrite !lookup_insert_ne by congruence. apply lookup_empty. }
  destruct (update_lead_rest lead_id u w) as (_ & _ & Hids).
  destruct (update_lead_world lead_id u w) as [Hw|(j & docs & d0 & -> & Hdb & Hdoc & Hrun)].
  - rewrite Hw. apply poll_frame_refl.
  - unfold poll_frame. rewrite Hrun in *. cbn [snd] in *.
    repeat split; try reflexivity; try assumption.
Qed.

Lemma poll_frame_mark_as_read (message_id : string) (w : world) :
  poll_frame w (snd (GmailAPI.mark_as_read message_id w)).
Proof.
  destruct (mark_as_read_world message_id w) as [->| ->]; [apply poll_frame_refl|].
  unfold poll_frame. repeat split; reflexivity.
Qed.

(** Where [process_reply] leaves the world: untouched, or after the update
    it makes, with or without the mark. *)
Lemma process_reply_steps (r : reply) (w : world) :
  snd (process_reply r w) = w
  \/ exists (lead_id : pyval) (c : string),
       classify_response (gemini w) (r_snippet r) = Ok c
       /\ let w1 := snd (update_lead lead_id
                           (reply_updates (default "replied" (LEAD_STATUS_MAP !! c))
                                          (PFloat (now w)) (score_lead (r_snippet r))) w) in
          snd (process_reply r w) = w1
          \/ snd (process_reply r w) = snd (GmailAPI.mark_as_read (r_id r) w1).
Proof.
  remember (process_reply r w) as res eqn:Hres.
  unfold process_reply in Hres. unfold mbind at 1 in Hres. unfold M_bind at 1 in Hres.
  rewrite get_lead_by_thread_id_eq in Hres.
  destruct (db w) as [docs|] eqn:Hdb; cbn [mbind option_bind] in Hres;
    [|left; subst res; reflexivity].
  destruct (first_with_thread (r_threadId r) docs) as [lead|] eqn:Hfirst;
    [|left; subst res; reflexivity].
  rewrite (found_first_with_thread _ _ _ Hfirst) in Hres.
  unfold mbind, M_bind, lift, getitem, time_time, gets in Hres.
  destruct (lead !! "email"); [|left; subst res; reflexivity].
  destruct (classify_response (gemini w) (r_snippet r)) as [c|] eqn:Hc;
    [|left; subst res; reflexivity].
  destruct (lead !! "id") as [lead_id|]; [|left; subst res; reflexivity].
  cbn beta iota in Hres.
  right. exists lead_id, c. split; [reflexivity|].
  cbn zeta.
  destruct (update_lead lead_id _ w) as [[[]|e] w1]; [|left; subst res; reflexivity].
  right. cbn [snd].
  destruct (GmailAPI.mark_as_read (r_id r) w1) as [[[]|] w2]; subst res; reflexivity.
Qed.

Lemma poll_frame_process_reply (r : reply) (w : world) :
  poll_frame w (snd (process_reply r w)).
Proof.
  destruct (process_reply_steps r w) as [->|(lead_id & c & _ & [-> | ->])].
  - apply poll_frame_refl.
  - apply poll_frame_update_lead.
  - eapply poll_frame_trans; [apply poll_frame_update_lead|apply poll_frame_mark_as_read].
Qed.

Lemma poll_frame_for_each (l : list reply) (w : world) :
  poll_frame w (snd (for_each process_reply l w)).
Proof.
  revert w. induction l as [|r l IH]; intros w; [apply poll_frame_refl|].
  cbn [for_each]. unfold mbind, M_bind.
  pose proof (poll_frame_process_reply r w) as H.
  destruct (process_reply r w) as [[[]|e] w1]; cbn [snd] in *; [|exact H].
  eapply poll_frame_trans; [exact H|apply IH].
Qed.

Lemma poll_frame_check_replies (w : world) : poll_frame w (snd (check_replies w)).
Proof.
  rewrite check_replies_cycle_end. unfold cycle_end, try_catch.
  pose proof (poll_frame_for_each (candidates w) w) as H.
  destruct (for_each process_reply (candidates w) w) as [[[]|e] w1]; exact H.
Qed.

Lemma poll_frame_cycles (n : nat) (w : world) : poll_frame w (cycles n w).
Proof.
  revert w. induction n as [|n IH]; intros w; [apply poll_frame_refl|].
  cbn [cycles]. eapply poll_frame_trans; [apply poll_frame_check_replies|apply IH].
Qed.

(** Polling, for any number of cycles, sends no mail and does not move
    the clock; it neither adds nor removes a stored lead, and of a stored
    lead it changes at most the fields [status], [last_activity] and
    [score] (so never [thread_id], [email] or [sent_count]). *)
Theorem polling_frame (n : nat) (w : world) :
  send_calls (cycles n w) = send_calls w
  /\ now (cycles n w) = now w
  /\ option_map (List.map fst) (db (cycles n w)) = option_map (List.map fst) (db w)
  /\ (forall i k : string,
        k <> "status" -> k <> "last_activity" -> k <> "score" ->
        field (cycles n w) i k = field w i k).
Proof.
  destruct (poll_frame_cycles n w) as (H1 & H2 & _ & _ & _ & _ & _ & H8 & H9).
  repeat split; assumption.
Qed.

End PollFrameFacts.

Module CampaignOutcomeFacts.
Import PyStr PyVal Config Integrations AiEngine Database Automation Examples.
Import StoreFacts UnmatchedFacts FollowUpFacts CampaignFacts.

(** What the [try] of a turn can do to the world: nothing, one more call
    of the gateway, or that call and one update; it never moves the
    clock. *)
Lemma send_to_lead_world (campaign lead : dict) (w : world) :
  snd (send_to_lead campaign lead w) = w
  \/ exists mail,
       let w1 := set_send_calls (fun l => (l ++ [mail])%list) w in
       snd (send_to_lead campaign lead w) = w1
       \/ exists lead_id u, snd (send_to_lead campaign lead w) = snd (update_lead lead_id u w1).
Proof.
  remember (send_to_lead campaign lead w) as res eqn:Hres.
  unfold send_to_lead, mbind, M_bind, lift, getitem, time_time, gets in Hres.
  destruct (lead !! "name") as [name|]; [|left; subst res; reflexivity].
  destruct (lead !! "company") as [company|]; [|left; subst res; reflexivity].
  destruct (lead !! "email") as [recipient|]; [|left; subst res; reflexivity].
  right. exists (recipient, campaign_subject company, campaign_body name).
  cbn zeta.
  unfold GmailAPI.send_email in Hres.
  set (w1 := set_send_calls _ w) in *.
  destruct (negb (service w)); [left; subst res; reflexivity|].
  destruct (send_result w (length (send_calls w)) recipient
              (campaign_subject company) (campaign_body name)) as [thread_id|e];
    [|left; subst res; reflexivity].
  destruct (truthy thread_id); [|left; subst res; reflexivity].
  destruct (lead !! "id") as [lead_id|]; [|left; subst res; reflexivity].
  cbn beta iota in Hres.
  destruct (campaign !! "id") as [cid|]; [|left; subst res; reflexivity].
  destruct (add_one (dict_get lead "sent_count" (PInt 0))) as [sc|];
    [|left; subst res; reflexivity].
  right. exists lead_id, (sent_updates thread_id (PFloat (now w1)) cid sc).
  destruct (update_lead lead_id _ w1) as [[[]|e] w2]; subst res; reflexivity.
Qed.

Lemma send_to_lead_now (campaign lead : dict) (w : world) :
  now (snd (send_to_lead campaign lead w)) = now w
  /\ (length (send_calls (snd (send_to_lead campaign lead w))) <= S (length (send_calls w)))%nat.
Proof.
  destruct (send_to_lead_world campaign lead w) as [->|(mail & [-> | (lead_id & u & ->)])].
  - split; [reflexivity|]. apply Nat.le_succ_diag_r.
  - split; [reflexivity|]. cbn [send_calls set_send_calls].
    rewrite length_app. cbn [length]. rewrite Nat.add_1_r. apply Nat.le_refl.
  - destruct (update_lead_env lead_id u
                (set_send_calls (fun l => (l ++ [mail])%list) w)) as (_ & _ & Hnow).
    destruct (update_lead_rest lead_id u
                (set_send_calls (fun l => (l ++ [mail])%list) w)) as (_ & Hcalls & _).
    cbn zeta in Hnow, Hcalls. rewrite Hnow, Hcalls. split; [reflexivity|].
    cbn [send_calls set_send_calls].
    rewrite length_app. cbn [length]. rewrite Nat.add_1_r. apply Nat.le_refl.
Qed.

(** A turn for a lead that has an [email]: it returns, one second
    later, after at most one call of the gateway. *)
Lemma campaign_turn_email (campaign lead : dict) (w : world) :
  is_Some (lead !! "email") ->
  fst (campaign_turn campaign lead w) = Ok tt
  /\ now (snd (campaign_turn campaign lead w)) = now w + 1000000
  /\ (length (send_calls (snd (campaign_turn campaign lead w)))
      <= S (length (send_calls w)))%nat.
Proof.
  intros [recipient Hemail].
  destruct (send_to_lead_now campaign lead w) as (Hnow & Hcalls).
  unfold campaign_turn, try_catch, time_sleep, modify, mbind, M_bind, lift, getitem,
    mret, M_ret.
  rewrite Hemail.
  destruct (send_to_lead campaign lead w) as [[[]|e] w1];
    cbn [fst snd now set_now send_calls] in *;
    (split; [reflexivity|]); (split; [rewrite Hnow; lia|exact Hcalls]).
Qed.

(** A turn for a lead without an [email]: the [try] raises before the
    gateway is called, the handler raises in its turn, and the delay is
    not taken. *)
Lemma campaign_turn_no_email (campaign lead : dict) (w : world) :
  lead !! "email" = None ->
  campaign_turn campaign lead w = (Raise (KeyError "email"), w).
Proof.
  intros Hemail.
  unfold campaign_turn, try_catch, send_to_lead, mbind, M_bind, lift, getitem.
  rewrite Hemail.
  destruct (lead !! "name"); [|reflexivity].
  destruct (lead !! "company"); reflexivity.
Qed.

Lemma for_each_app {A} (body : A -> M unit) (pre post : list A) (w : world) :
  for_each body (pre ++ post)%list w
  = match for_each body pre w with
    | (Ok _, w1) => for_each body post w1
    | (Raise e, w1) => (Raise e, w1)
    end.
Proof.
  revert w. induction pre as [|x pre IH]; intros w; [reflexivity|].
  cbn [app for_each]. unfold mbind, M_bind.
  destruct (body x w) as [[[]|e] w1]; [apply IH|reflexivity].
Qed.

Lemma campaign_loop_email (campaign : dict) (leads : list dict) (w : world) :
  Forall (fun lead => is_Some (lead !! "email")) leads ->
  fst (for_each (campaign_turn campaign) leads w) = Ok tt
  /\ now (snd (for_each (campaign_turn campaign) leads w))
     = now w + Z.of_nat (length leads) * 1000000
  /\ (length (send_calls (snd (for_each (campaign_turn campaign) leads w)))
      <= length (send_calls w) + length leads)%nat.
Proof.
  intros Hall. revert w. induction Hall as [|lead leads Hlead _ IH]; intros w.
  - cbn [for_each length]. unfold mret, M_ret. cbn [fst snd].
    split; [reflexivity|]. split; lia.
  - cbn [for_each]. unfold mbind, M_bind.
    destruct (campaign_turn_email campaign lead w Hlead) as (Hok & Hnow & Hcalls).
    destruct (campaign_turn campaign lead w) as [[[]|e] w1]; cbn [fst snd] in *;
      [|discriminate].
    destruct (IH w1) as (Hok' & Hnow' & Hcalls').
    split; [exact Hok'|]. split.
    + rewrite Hnow', Hnow. cbn [length]. lia.
    + cbn [length]. lia.
Qed.

(** [run_campaign_send] returns normally exactly when the campaign has a
    [name] and every lead an [email], whatever the gateway and the store
    do; it has then taken one second per lead and called the gateway at
    most once per lead.  A campaign without a [name] raises [KeyError]
    before anything is done.  A lead without an [email] ends the run with
    [KeyError]: the leads before it are served as in a run of their own,
    it and the leads after it are not contacted. *)
Theorem run_campaign_send_outcome (campaign : dict) (leads : list dict) (w : world) :
  (fst (run_campaign_send campaign leads w) = Ok tt
   <-> is_Some (campaign !! "name")
       /\ Forall (fun lead => is_Some (lead !! "email")) leads)
  /\ (fst (run_campaign_send campaign leads w) = Ok tt ->
      now (snd (run_campaign_send campaign leads w))
      = now w + Z.of_nat (length leads) * 1000000
      /\ (length (send_calls (snd (run_campaign_send campaign leads w)))
          <= length (send_calls w) + length leads)%nat)
  /\ (campaign !! "name" = None ->
      run_campaign_send campaign leads w = (Raise (KeyError "name"), w))
  /\ (forall (pre post : list dict) (lead : dict),
        is_Some (campaign !! "name") ->
        leads = (pre ++ lead :: post)%list ->
        Forall (fun lead => is_Some (lead !! "email")) pre ->
        lead !! "email" = None ->
        run_campaign_send campaign leads w
        = (Raise (KeyError "email"), snd (run_campaign_send campaign pre w))).
Proof.
  assert (Hname : campaign !! "name" = None ->
                  run_campaign_send campaign leads w = (Raise (KeyError "name"), w)).
  { intros H. unfold run_campaign_send, mbind, M_bind, lift, getitem. rewrite H.
    reflexivity. }
  assert (Hrun : is_Some (campaign !! "name") ->
                 forall l, run_campaign_send campaign l w
                           = for_each (campaign_turn campaign) l w).
  { intros [name H] l. unfold run_campaign_send, mbind, M_bind, lift, getitem.
    rewrite H. reflexivity. }
  assert (Hstop : forall (pre post : list dict) (lead : dict),
             is_Some (campaign !! "name") ->
             leads = (pre ++ lead :: post)%list ->
             Forall (fun lead => is_Some (lead !! "email")) pre ->
             lead !! "email" = None ->
             run_campaign_send campaign leads w
             = (Raise (KeyError "email"), snd (run_campaign_send campaign pre w))).
  { intros pre post lead Hn -> Hpre Hlead.
    rewrite !(Hrun Hn). rewrite for_each_app.
    destruct (campaign_loop_email campaign pre w Hpre) as (Hok & _).
    destruct (for_each (campaign_turn campaign) pre w) as [[[]|e] w1];
      cbn [fst snd] in *; [|discriminate].
    cbn [for_each]. unfold mbind, M_bind.
    rewrite (campaign_turn_no_email campaign lead w1 Hlead). reflexivity. }
  assert (Hback : fst (run_campaign_send campaign leads w) = Ok tt ->
                  is_Some (campaign !! "name")
                  /\ Forall (fun lead => is_Some (lead !! "email")) leads).
  { intros Hok.
    assert (Hsome : is_Some (campaign !! "name")).
    { destruct (campaign !! "name") as [name|] eqn:Hn; [eexists; reflexivity|].
      rewrite (Hname eq_refl) in Hok. discriminate. }
    split; [exact Hsome|].
    assert (Hsplit : forall done todo : list dict,
               leads = (done ++ todo)%list ->
               Forall (fun lead => is_Some (lead !! "email")) done ->
               Forall (fun lead => is_Some (lead !! "email")) todo).
    { intros done todo. revert done.
      induction todo as [|lead todo IH]; intros done Heq Hdone; [constructor|].
      destruct (lead !! "email") as [recipient|] eqn:Hlead.
      - constructor; [rewrite Hlead; eexists; reflexivity|].
        apply (IH (done ++ [lead])%list).
        + rewrite <- app_assoc. exact Heq.
        + apply Forall_app. split; [exact Hdone|].
          constructor; [rewrite Hlead; eexists; reflexivity|constructor].
      - rewrite (Hstop done todo lead Hsome Heq Hdone Hlead) in Hok. discriminate. }
    apply (Hsplit [] leads); [reflexivity|constructor]. }
  split; [split; [exact Hback|]|split; [|split; [exact Hname|exact Hstop]]].
  - intros [Hn Hall]. rewrite (Hrun Hn).
    apply (campaign_loop_email campaign leads w Hall).
  - intros Hok. destruct (Hback Hok) as [Hn Hall]. rewrite (Hrun Hn).
    destruct (campaign_loop_email campaign leads w Hall) as (_ & H1 & H2).
    split; assumption.
Qed.

End CampaignOutcomeFacts.

Module FollowUpOutcomeFacts.
Import PyStr PyVal Config Integrations AiEngine Database Automation Examples.
Import StoreFacts UnmatchedFacts FollowUpFacts CampaignFacts.

(** [send_follow_up] raises exactly when the lead has no [email], and
    then with [KeyError] and before anything is done; the [step] plays no
    part.  With a [name], a [company] and an [email] the gateway is called
    once, with the follow-up message; when the gateway does not deliver
    (no service, an exception, an empty thread id) the call still returns
    and the store is as it was; a lead that lacks [name] or [company] is
    not contacted at all. *)
Theorem send_follow_up_outcome (lead : dict) (step : pyval) (w : world) :
  (fst (send_follow_up lead step w) = Ok tt <-> is_Some (lead !! "email"))
  /\ (lead !! "email" = None ->
      send_follow_up lead step w = (Raise (KeyError "email"), w))
  /\ (forall step' : pyval, send_follow_up lead step' w = send_follow_up lead step w)
  /\ (forall name company recipient : pyval,
        lead !! "name" = Some name -> lead !! "company" = Some company ->
        lead !! "email" = Some recipient ->
        let mail := (recipient, follow_up_subject company, follow_up_body name) in
        send_calls (snd (send_follow_up lead step w)) = (send_calls w ++ [mail])%list
        /\ (delivered (gateway_answer w (length (send_calls w)) mail) = None ->
            db (snd (send_follow_up lead step w)) = db w))
  /\ (lead !! "name" = None \/ lead !! "company" = None ->
      snd (send_follow_up lead step w) = w).
Proof.
  split; [split|split; [|split; [|split]]].
  - intros Hok. destruct (lead !! "email") as [recipient|] eqn:H; [eexists; reflexivity|].
    rewrite (send_follow_up_no_email lead step w H) in Hok. discriminate.
  - intros H. apply (send_follow_up_email lead step w H).
  - apply send_follow_up_no_email.
  - intros step'. reflexivity.
  - intros name company recipient Hname Hcompany Hemail mail.
    assert (Hsome : is_Some (lead !! "email")) by (rewrite Hemail; eexists; reflexivity).
    destruct (send_follow_up_email lead step w Hsome) as (_ & ->).
    pose proof (follow_up_try_run lead w name company recipient Hname Hcompany Hemail)
      as Hrun.
    cbn zeta in Hrun. fold mail in Hrun.
    destruct (delivered (gateway_answer w (length (send_calls w)) mail)) as [thread_id|].
    + split; [|discriminate].
      destruct Hrun as [->|(lead_id & sc & _ & _ & ->)]; [reflexivity|].
      destruct (update_lead_rest lead_id (follow_up_updates (PFloat (now w)) sc)
                  (set_send_calls (fun l => (l ++ [mail])%list) w)) as (_ & Hcalls & _).
      cbn zeta in Hcalls. rewrite Hcalls. reflexivity.
    + rewrite Hrun. split; [reflexivity|]. intros _. reflexivity.
  - intros Hmiss.
    destruct (lead !! "email") as [recipient|] eqn:Hemail;
      [|rewrite (send_follow_up_no_email lead step w Hemail); reflexivity].
    assert (Hsome : is_Some (lead !! "email")) by (rewrite Hemail; eexists; reflexivity).
    destruct (send_follow_up_email lead step w Hsome) as (_ & ->).
    unfold follow_up_try, mbind, M_bind, lift, getitem.
    destruct Hmiss as [H|H].
    + rewrite H. reflexivity.
    + rewrite H. destruct (lead !! "name"); reflexivity.
Qed.

End FollowUpOutcomeFacts.

Module ColdEmailContractFacts.
Import PyStr PyVal Config Integrations AiEngine Examples.
Import ColdEmailFacts.


End ColdEmailContractFacts.

Module RepoGeneratorFacts.
Import PyStr PyVal Config Integrations AiEngine Database Automation Examples.
Import AiEngineFacts StoreFacts PollFacts UnmatchedFacts MonitorFacts PollFrameFacts.

(** The status of a document after an update of the store: the one
    written, or the one it had. *)
Lemma status_update_lead (lead_id : pyval) (st score : string) (t : pyval)
  (w : world) (i : string) :
  field (snd (update_lead lead_id (reply_updates st t score) w)) i "status"
  = field w i "status"
  \/ field (snd (update_lead lead_id (reply_updates st t score) w)) i "status"
     = Some (PStr st).
Proof.
  destruct (update_lead_world lead_id (reply_updates st t score) w)
    as [->|(j & docs & d0 & -> & Hdb & Hdoc & ->)]; [left; reflexivity|].
  unfold field. cbn [snd db set_db]. rewrite Hdb. cbn [mbind option_bind].
  destruct (String.eqb_spec j i) as [->|Hne].
  - right. rewrite (find_doc_update_same _ _ _ _ Hdoc). cbn [mbind option_bind].
    apply lookup_union_Some_l. apply lookup_insert_eq.
  - left. rewrite (find_doc_update_other _ _ _ _ Hne). reflexivity.
Qed.

Lemma replied_process_reply (r : reply) (w : world) (i : string) :
  gemini w = GeminiAPI_generate_content ->
  field (snd (process_reply r w)) i "status" = field w i "status"
  \/ field (snd (process_reply r w)) i "status" = Some (PStr "replied").
Proof.
  intros Hg.
  destruct (process_reply_steps r w) as [->|(lead_id & c & Hc & Hw)];
    [left; reflexivity|].
  rewrite Hg in Hc. injection Hc as <-. cbn zeta in Hw.
  change (default "replied" (LEAD_STATUS_MAP !! "neutral")) with "replied" in Hw.
  destruct Hw as [-> | ->]; rewrite ?field_mark_as_read; apply status_update_lead.
Qed.

Lemma replied_for_each (l : list reply) (w : world) (i : string) :
  gemini w = GeminiAPI_generate_content ->
  field (snd (for_each process_reply l w)) i "status" = field w i "status"
  \/ field (snd (for_each process_reply l w)) i "status" = Some (PStr "replied").
Proof.
  revert w. induction l as [|r l IH]; intros w Hg; [left; reflexivity|].
  cbn [for_each]. unfold mbind, M_bind.
  pose proof (replied_process_reply r w i Hg) as Hr.
  destruct (poll_frame_process_reply r w) as (_ & _ & _ & _ & _ & _ & Hg' & _).
  destruct (process_reply r w) as [[[]|e] w1]; cbn [snd] in *; [|exact Hr].
  rewrite Hg in Hg'.
  destruct (IH w1 Hg') as [H|H]; [rewrite H; exact Hr | right; exact H].
Qed.

Lemma replied_cycles (n : nat) (w : world) (i : string) :
  gemini w = GeminiAPI_generate_content ->
  field (cycles n w) i "status" = field w i "status"
  \/ field (cycles n w) i "status" = Some (PStr "replied").
Proof.
  revert w. induction n as [|n IH]; intros w Hg; [left; reflexivity|].
  cbn [cycles].
  assert (Hc : field (snd (check_replies w)) i "status" = field w i "status"
               \/ field (snd (check_replies w)) i "status" = Some (PStr "replied")).
  { rewrite check_replies_cycle_end. unfold cycle_end, try_catch.
    pose proof (replied_for_each (candidates w) w i Hg) as H.
    destruct (for_each process_reply (candidates w) w) as [[[]|e] w1]; exact H. }
  destruct (poll_frame_check_replies w) as (_ & _ & _ & _ & _ & _ & Hg' & _).
  rewrite Hg in Hg'.
  destruct (IH (snd (check_replies w)) Hg') as [H|H];
    [rewrite H; exact Hc | right; exact H].
Qed.

(** With the generator of the repository, whose class [GeminiAPI] has no
    [generate_content], the text of a reply plays no part in its
    classification: every reply is ['neutral'], and every cold email is
    the hard-coded one; so the only status the monitor ever writes is
    ['replied'] (the default of [LEAD_STATUS_MAP.get]): after a turn of
    its loop, or any number of poll cycles, the status of a stored lead
    is the one it had or ['replied']. *)
Theorem repo_generator_replied :
  (forall email_body : string,
      classify_response GeminiAPI_generate_content email_body = Ok "neutral")
  /\ (forall (jl : string -> outcome pyval) (lead : dict) (prompt : string),
        generate_cold_email GeminiAPI_generate_content jl lead prompt
        = Ok (template_email lead))
  /\ (forall (w : world) (r : reply) (i : string),
        gemini w = GeminiAPI_generate_content ->
        field (snd (process_reply r w)) i "status" = field w i "status"
        \/ field (snd (process_reply r w)) i "status" = Some (PStr "replied"))
  /\ (forall (w : world) (n : nat) (i : string),
        gemini w = GeminiAPI_generate_content ->
        field (cycles n w) i "status" = field w i "status"
        \/ field (cycles n w) i "status" = Some (PStr "replied")).
Proof.
  split; [reflexivity|]. split; [reflexivity|]. split.
  - intros w r i. apply replied_process_reply.
  - intros w n i. apply replied_cycles.
Qed.

Lemma repo_generator_replied_witness :
  let w := world_with interested_snippet GeminiAPI_generate_content in
  field (cycles 2 w) "L1" "status" = field w "L1" "status"
  \/ field (cycles 2 w) "L1" "status" = Some (PStr "replied").
Proof.
  intros w.
  apply (proj2 (proj2 (proj2 repo_generator_replied)) w 2%nat "L1" eq_refl).
Defined.

End RepoGeneratorFacts.

Module LoopFacts.
Import PyStr PyVal Config Integrations AiEngine Database Automation Examples.
Import StoreFacts PollFacts CycleFacts MonitorFacts PollFrameFacts.

Lemma stops_app_false (a b : list event) :
  stops (a ++ b) = false -> stops a = false /\ stops b = false.
Proof. rewrite stops_app. apply orb_false_elim. Qed.

Lemma ticks_split (a b : nat) (evs : list event) :
  ticks evs = (a + b)%nat ->
  exists pre post, evs = (pre ++ post)%list /\ ticks pre = a /\ ticks post = b.
Proof.
  revert evs. induction a as [|a IH]; intros evs H.
  - exists [], evs. auto.
  - destruct (first_tick evs (a + b) H) as (p & q & -> & Hp & Hq).
    destruct (IH q Hq) as (pre & post & -> & Hpre & Hpost).
    exists (p ++ Tick :: pre)%list, post. split; [|split; [|exact Hpost]].
    + rewrite <- app_assoc. reflexivity.
    + rewrite ticks_app, Hp. change (ticks (Tick :: pre)) with (S (ticks pre)).
      rewrite Hpre. reflexivity.
Qed.

(** One step of the thread, among calls of [stop] that do not come. *)
Lemma one_tick (evs : list event) (m : monitor) :
  stops evs = false -> ticks evs = 1%nat -> stop_event m = false ->
  exec evs m = tick m.
Proof.
  intros Hs Ht Hm.
  destruct (first_tick evs 0 Ht) as (p & q & -> & Hp & Hq).
  apply stops_app_false in Hs as [Hsp Hsq].
  change (Tick :: q) with ([Tick] ++ q)%list in Hsq.
  apply stops_app_false in Hsq as [_ Hsq].
  rewrite (exec_first_tick p q m Hp), Hsp, Hm. cbn [orb].
  replace (Monitor false (interval m) (at_phase m) (mworld m)) with m
    by (destruct m; cbn in *; congruence).
  rewrite (exec_no_ticks q (tick m) Hq), Hsq, orb_false_r.
  destruct (tick m); reflexivity.
Qed.

Lemma tick_stop_event (m : monitor) : stop_event (tick m) = stop_event m.
Proof.
  unfold tick, goto. destruct (at_phase m) as [| |[|r todo]| |]; try reflexivity.
  - destruct (stop_event m); reflexivity.
  - destruct (GmailAPI.get_replies (mworld m)) as [[[|r l]|e] w1]; reflexivity.
  - destruct (process_reply r (mworld m)) as [[[]|e] w1]; reflexivity.
Qed.

Lemma tick_not_returned (m : monitor) :
  stop_event m = false -> at_phase m <> Returned -> at_phase (tick m) <> Returned.
Proof.
  intros Hm Hp. unfold tick, goto.
  destruct (at_phase m) as [| |[|r todo]| |]; try discriminate.
  - rewrite Hm. discriminate.
  - destruct (GmailAPI.get_replies (mworld m)) as [[[|r l]|e] w1]; discriminate.
  - destruct (process_reply r (mworld m)) as [[[]|e] w1]; discriminate.
  - exfalso. apply Hp. reflexivity.
Qed.

Lemma loop_turn (secs : Z) (w : world) :
  exists n : nat, forall evs : list event,
    stops evs = false -> ticks evs = n ->
    exec evs (Monitor false secs Testing w) = Monitor false secs Testing (turn_end secs w).
Proof.
  destruct (polling_completes w) as (n & _ & Hp).
  exists (1 + (n + 1))%nat. intros evs Hs Ht.
  destruct (ticks_split 1 (n + 1) evs Ht) as (first & rest & -> & Hfirst & Hrest).
  apply stops_app_false in Hs as [Hs1 Hs].
  destruct (ticks_split n 1 rest Hrest) as (mid & last & -> & Hmid & Hlast).
  apply stops_app_false in Hs as [Hs2 Hs3].
  rewrite !exec_app.
  rewrite (one_tick first (Monitor false secs Testing w) Hs1 Hfirst eq_refl).
  change (tick (Monitor false secs Testing w)) with (Monitor false secs Polling w).
  rewrite (proj2 (Hp false secs mid) Hmid), Hs2. cbn [orb].
  rewrite (one_tick last (Monitor false secs Sleeping (snd (check_replies w)))
             Hs3 Hlast eq_refl).
  reflexivity.
Qed.

Lemma turn_end_now (secs : Z) (w : world) :
  now (turn_end secs w) = now w + secs * 1000000.
Proof.
  unfold turn_end, time_sleep, modify. cbn [snd now set_now].
  destruct (poll_frame_check_replies w) as (_ & -> & _). reflexivity.
Qed.

Lemma turn_end_send_calls (secs : Z) (w : world) :
  send_calls (turn_end secs w) = send_calls w.
Proof.
  unfold turn_end, time_sleep, modify. cbn [snd send_calls set_now].
  destruct (poll_frame_check_replies w) as (-> & _). reflexivity.
Qed.

(** While nobody calls [stop], [run] does not return, and what its thread
    does is a sequence of turns, each one poll cycle followed by a sleep
    of [interval] seconds: for every number of turns there is a number of
    steps after which the thread is back at the test of its loop, in the
    world these turns leave, [interval] seconds later for each turn and
    with no mail sent. *)
Theorem run_without_stop :
  (forall (evs : list event) (m : monitor),
      stop_event m = false -> stops evs = false -> at_phase m <> Returned ->
      at_phase (exec evs m) <> Returned /\ stop_event (exec evs m) = false)
  /\ (forall (k : nat) (secs : Z) (w : world),
        exists n : nat, forall evs : list event,
          stops evs = false -> ticks evs = n ->
          exec evs (Monitor false secs Testing w)
          = Monitor false secs Testing (Nat.iter k (turn_end secs) w))
  /\ (forall (k : nat) (secs : Z) (w : world),
        now (Nat.iter k (turn_end secs) w) = now w + Z.of_nat k * secs * 1000000
        /\ send_calls (Nat.iter k (turn_end secs) w) = send_calls w).
Proof.
  split; [|split].
  - intros evs. induction evs as [|e evs IH]; intros m Hm Hs Hp.
    + split; assumption.
    + cbn [stops existsb] in Hs. apply orb_false_elim in Hs as [He Hs].
      destruct e; [|discriminate].
      change (exec (Tick :: evs) m) with (exec evs (tick m)).
      apply IH; [| exact Hs |].
      * rewrite tick_stop_event. exact Hm.
      * apply tick_not_returned; assumption.
  - intros k secs w. induction k as [|k [n IH]].
    + exists 0%nat. intros evs Hs Ht.
      rewrite (exec_no_ticks evs _ Ht), Hs. reflexivity.
    + destruct (loop_turn secs (Nat.iter k (turn_end secs) w)) as [n' Hturn].
      exists (n + n')%nat. intros evs Hs Ht.
      destruct (ticks_split n n' evs Ht) as (pre & post & -> & Hpre & Hpost).
      apply stops_app_false in Hs as [Hs1 Hs2].
      rewrite exec_app, (IH pre Hs1 Hpre), (Hturn post Hs2 Hpost). reflexivity.
  - intros k secs w. induction k as [|k [IH1 IH2]].
    + split; [|reflexivity]. cbn [Nat.iter nat_rect]. lia.
    + change (Nat.iter (S k) (turn_end secs) w)
        with (turn_end secs (Nat.iter k (turn_end secs) w)).
      split.
      * rewrite turn_end_now, IH1. lia.
      * rewrite turn_end_send_calls. exact IH2.
Qed.

Lemma run_without_stop_witness :
  at_phase (exec [Tick; Tick; Tick] (Monitor false 60 Testing world_stray)) <> Returned
  /\ stop_event (exec [Tick; Tick; Tick] (Monitor false 60 Testing world_stray)) = false.
Proof.
  apply (proj1 run_without_stop [Tick; Tick; Tick] (Monitor false 60 Testing world_stray)).
  - reflexivity.
  - reflexivity.
  - discriminate.
Defined.

End LoopFacts.

Module MissingIdFacts.
Import PyStr PyVal Config Integrations AiEngine Database Automation Examples.
Import AiEngineFacts StoreFacts PollFacts CampaignOutcomeFacts.

Lemma classify_response_returns (g : generator) (email_body : string) :
  exists c, classify_response g email_body = Ok c.
Proof.
  rewrite classify_response_cases.
  destruct (g (classify_prompt email_body)) as [[]|]; eauto.
  case_bool_decide; eauto.
Qed.

Lemma process_reply_without_id (r : reply) (w : world)
  (docs : list (string * dict)) (lead : dict) :
  db w = Some docs ->
  first_with_thread (r_threadId r) docs = Some lead ->
  lead !! "id" = None ->
  process_reply r w
  = (Raise (KeyError (match lead !! "email" with Some _ => "id" | None => "email" end)),
     w).
Proof.
  intros Hdb Hfirst Hid.
  destruct (classify_response_returns (gemini w) (r_snippet r)) as [c Hc].
  unfold process_reply. unfold mbind at 1. unfold M_bind at 1.
  rewrite get_lead_by_thread_id_eq, Hdb. cbn [mbind option_bind].
  rewrite Hfirst, (found_first_with_thread _ _ _ Hfirst).
  unfold mbind, M_bind, lift, getitem, time_time, gets.
  destruct (lead !! "email"); [|reflexivity].
  rewrite Hc, Hid. reflexivity.
Qed.

Lemma candidates_get_replies (w : world) (l : list reply) :
  candidates w = l -> l <> [] -> GmailAPI.get_replies w = (Ok l, w).
Proof.
  unfold candidates. intros Hc Hl.
  pose proof (get_replies_world w) as Hw.
  destruct (GmailAPI.get_replies w) as [[l'|e] w1]; cbn [fst snd] in *; subst; congruence.
Qed.

(** A stored lead without a field [id] (the [Lead] model that [save_lead]
    writes has none) blocks the monitor: when the first reply a cycle
    fetches is on the thread of such a lead, the turn for it raises
    [KeyError], the cycle ends there having written and marked nothing,
    and every later cycle does the same, so that no reply behind it is
    ever processed. *)
Theorem lead_without_id_blocks_polling (w : world) (docs : list (string * dict))
  (lead : dict) (r : reply) (rest : list reply) :
  candidates w = r :: rest ->
  db w = Some docs ->
  first_with_thread (r_threadId r) docs = Some lead ->
  lead !! "id" = None ->
  (exists key, process_reply r w = (Raise (KeyError key), w))
  /\ check_replies w = (Ok tt, w)
  /\ forall n : nat, cycles n w = w.
Proof.
  intros Hc Hdb Hfirst Hid.
  pose proof (process_reply_without_id r w docs lead Hdb Hfirst Hid) as Hproc.
  assert (Hcycle : check_replies w = (Ok tt, w)).
  { unfold check_replies, try_catch, check_replies_try.
    unfold mbind at 1. unfold M_bind at 1.
    rewrite (candidates_get_replies w (r :: rest) Hc) by discriminate.
    cbn [for_each]. unfold mbind, M_bind. rewrite Hproc. reflexivity. }
  split; [eexists; exact Hproc|]. split; [exact Hcycle|].
  intros n. induction n as [|n IH]; [reflexivity|].
  cbn [cycles]. rewrite Hcycle. exact IH.
Qed.

Lemma lead_without_id_blocks_polling_witness :
  check_replies (world_two jane_saved) = (Ok tt, world_two jane_saved)
  /\ forall n : nat, cycles n (world_two jane_saved) = world_two jane_saved.
Proof.
  destruct (lead_without_id_blocks_polling (world_two jane_saved)
              [("L1", jane_saved); ("L2", john_doc)] jane_saved reply_m1 [reply_m2])
    as (_ & H1 & H2).
  - reflexivity.
  - reflexivity.
  - reflexivity.
  - reflexivity.
  - split; [exact H1|exact H2].
Defined.

Lemma campaign_turn_without_id (campaign lead : dict) (w : world) :
  is_Some (lead !! "name") -> is_Some (lead !! "company") ->
  is_Some (lead !! "email") -> lead !! "id" = None ->
  campaign_turn campaign lead w
  = (Ok tt, set_now (fun t => t + 1 * 1000000)
              (set_send_calls (fun l => (l ++ [mail_of lead])%list) w)).
Proof.
  intros [name Hn] [company Hc] [recipient He] Hid.
  unfold campaign_turn, try_catch, send_to_lead, time_sleep, modify, mbind, M_bind,
    lift, getitem, mret, M_ret, GmailAPI.send_email, mail_of, dict_get.
  rewrite Hn, Hc, He, Hid. cbn [default].
  destruct (negb (service w)); [reflexivity|].
  destruct (send_result w (length (send_calls w)) recipient
              (campaign_subject company) (campaign_body name)) as [thread_id|e];
    [|reflexivity].
  destruct (truthy thread_id); reflexivity.
Qed.

(** Leads without a field [id] (what [get_leads_for_campaign] returns of
    documents written by [save_lead]) are sent to but never recorded:
    [run_campaign_send] returns normally, the gateway has been called once
    for each lead, in order, and the store is exactly as it was -- no
    status ['sent'], no [thread_id] --, whether the sends succeeded or
    not. *)
Theorem campaign_without_ids_not_recorded (campaign : dict) (leads : list dict)
  (w : world) :
  is_Some (campaign !! "name") ->
  Forall (fun lead => is_Some (lead !! "name") /\ is_Some (lead !! "company")
                      /\ is_Some (lead !! "email") /\ lead !! "id" = None) leads ->
  fst (run_campaign_send campaign leads w) = Ok tt
  /\ db (snd (run_campaign_send campaign leads w)) = db w
  /\ send_calls (snd (run_campaign_send campaign leads w))
     = (send_calls w ++ (mail_of <$> leads))%list.
Proof.
  intros [name Hname] Hall.
  assert (Hrun : run_campaign_send campaign leads w
                 = for_each (campaign_turn campaign) leads w).
  { unfold run_campaign_send, mbind, M_bind, lift, getitem. rewrite Hname. reflexivity. }
  rewrite Hrun. clear Hrun.
  revert w. induction Hall as [|lead leads (Hn & Hc & He & Hid) _ IH]; intros w.
  - cbn [for_each fmap list_fmap]. unfold mret, M_ret. cbn [fst snd].
    rewrite app_nil_r. auto.
  - cbn [for_each]. unfold mbind, M_bind.
    rewrite (campaign_turn_without_id campaign lead w Hn Hc He Hid).
    destruct (IH (set_now (fun t => t + 1 * 1000000)
                    (set_send_calls (fun l => (l ++ [mail_of lead])%list) w)))
      as (H1 & H2 & H3).
    split; [exact H1|]. split; [exact H2|].
    rewrite H3. cbn [send_calls set_now set_send_calls fmap list_fmap].
    rewrite <- app_assoc. reflexivity.
Qed.

Lemma campaign_without_ids_not_recorded_witness :
  fst (run_campaign_send campaign_1 [jane_saved] world_campaign) = Ok tt
  /\ db (snd (run_campaign_send campaign_1 [jane_saved] world_campaign)) = db world_campaign
  /\ send_calls (snd (run_campaign_send campaign_1 [jane_saved] world_campaign))
     = [mail_of jane_saved].
Proof.
  apply (campaign_without_ids_not_recorded campaign_1 [jane_saved] world_campaign).
  - eexists. reflexivity.
  - constructor; [|constructor].
    split; [eexists; reflexivity|]. split; [eexists; reflexivity|].
    split; [eexists; reflexivity|reflexivity].
Defined.

End MissingIdFacts.

Module NormaliseFacts.
Import PyStr PyVal Config Integrations AiEngine Examples.
Import AiEngineFacts.

Lemma append_cons (a : ascii) (s t : string) : String a s +:+ t = String a (s +:+ t).
Proof. reflexivity. Qed.

Lemma append_nil (t : string) : EmptyString +:+ t = t.
Proof. reflexivity. Qed.

(** Lowering a character neither makes nor unmakes white space. *)
Lemma is_space_lower_char (a : ascii) : is_space (lower_char a) = is_space a.
Proof. destruct a as [[] [] [] [] [] [] [] []]; vm_compute; reflexivity. Qed.

Lemma lstrip_lower (s : string) : lstrip (lower s) = lower (lstrip s).
Proof.
  induction s as [|a s IH]; [reflexivity|].
  cbn [lower lstrip]. rewrite is_space_lower_char.
  destruct (is_space a); [exact IH|reflexivity].
Qed.

Lemma rstrip_lower (s : string) : rstrip (lower s) = lower (rstrip s).
Proof.
  induction s as [|a s IH]; [reflexivity|].
  cbn [lower rstrip]. rewrite IH.
  destruct (rstrip s); cbn [lower]; [|reflexivity].
  rewrite is_space_lower_char. destruct (is_space a); reflexivity.
Qed.

Lemma strip_lower (s : string) : strip (lower s) = lower (strip s).
Proof. unfold strip. rewrite lstrip_lower. apply rstrip_lower. Qed.

Lemma normalise_lower (s s' : string) : lower s' = lower s -> normalise s' = normalise s.
Proof. intros H. unfold normalise. rewrite <- !strip_lower, H. reflexivity. Qed.

Lemma lstrip_head (s : string) (a : ascii) (r : string) :
  lstrip s = String a r -> is_space a = false.
Proof.
  induction s as [|b s IH]; [discriminate|].
  cbn [lstrip]. destruct (is_space b) eqn:Hb; [exact IH|].
  intros [= <- <-]. exact Hb.
Qed.

(** A string that [strip] empties is made of white space. *)
Lemma strip_empty_lstrip (x : string) : strip x = EmptyString -> lstrip x = EmptyString.
Proof.
  unfold strip. destruct (lstrip x) as [|a r] eqn:E; [reflexivity|].
  apply lstrip_head in E. cbn [rstrip].
  destruct (rstrip r); rewrite ?E; discriminate.
Qed.

Lemma lstrip_append_space (pre s : string) :
  lstrip pre = EmptyString -> lstrip (pre +:+ s) = lstrip s.
Proof.
  induction pre as [|a pre IH]; [reflexivity|].
  rewrite append_cons. cbn [lstrip].
  destruct (is_space a); [exact IH|discriminate].
Qed.

Lemma rstrip_space (post : string) : lstrip post = EmptyString -> rstrip post = EmptyString.
Proof.
  induction post as [|a post IH]; [reflexivity|].
  cbn [lstrip rstrip]. destruct (is_space a); [|discriminate].
  intros H. rewrite (IH H). reflexivity.
Qed.

Lemma rstrip_append_space (s post : string) :
  lstrip post = EmptyString -> rstrip (s +:+ post) = rstrip s.
Proof.
  intros H. induction s as [|a s IH].
  - rewrite append_nil. apply rstrip_space, H.
  - rewrite append_cons. cbn [rstrip]. rewrite IH. reflexivity.
Qed.

Lemma strip_padding (pre s post : string) :
  strip pre = EmptyString -> strip post = EmptyString ->
  strip (pre +:+ s +:+ post) = strip s.
Proof.
  intros Hpre Hpost. apply strip_empty_lstrip in Hpre, Hpost.
  unfold strip. rewrite (lstrip_append_space pre _ Hpre).
  induction s as [|a s IH].
  - rewrite append_nil, Hpost. reflexivity.
  - rewrite append_cons. cbn [lstrip]. destruct (is_space a); [exact IH|].
    rewrite <- append_cons. apply rstrip_append_space, Hpost.
Qed.

(** [classify_response] reads the answer of the generator up to its case
    and the white space around it: two answers that differ only in these
    give the same classification. *)
Theorem classify_response_reading (g1 g2 : generator) (email_body : string)
  (s1 s2 pre post : string) :
  g1 (classify_prompt email_body) = Ok (PStr s1) ->
  g2 (classify_prompt email_body) = Ok (PStr (pre +:+ s2 +:+ post)) ->
  lower s1 = lower s2 ->
  strip pre = EmptyString -> strip post = EmptyString ->
  normalise (pre +:+ s2 +:+ post) = normalise s1
  /\ classify_response g2 email_body = classify_response g1 email_body.
Proof.
  intros H1 H2 Hlow Hpre Hpost.
  assert (Hn : normalise (pre +:+ s2 +:+ post) = normalise s1).
  { transitivity (normalise s2).
    - unfold normalise. rewrite (strip_padding pre s2 post Hpre Hpost). reflexivity.
    - apply normalise_lower. symmetry. exact Hlow. }
  split; [exact Hn|].
  rewrite !classify_response_cases, H1, H2, Hn. reflexivity.
Qed.

Lemma classify_response_reading_witness :
  classify_response (answers (" " +:+ "Not Interested" +:+ NL)) "No thanks."
  = classify_response (answers "not interested") "No thanks.".
Proof.
  apply (classify_response_reading (answers "not interested")
           (answers (" " +:+ "Not Interested" +:+ NL)) "No thanks."
           "not interested" "Not Interested" " " NL); reflexivity.
Defined.

End NormaliseFacts.
